(** * chrds::midi — a shallow embedding of [include/chrds.hpp]

    The header defines two non-owning views over caller-owned bytes:
    [MessageView<T>], a window of exactly three bytes decoded as one MIDI
    message, and [MessagesView<T>], a byte buffer whose length is a multiple
    of three together with its random-access [MessageIterator].

    The caller's array is modelled as a [list T]; pointers and span
    iterators are offsets into it.  Every member function is a computation
    in a small state-and-failure monad over that array, so that reads that
    leave the array, thrown exceptions and failed assertions are all
    visible in the result. *)

From Stdlib Require Import ZArith List Bool Lia.
From Stdlib Require Import Init.Byte Strings.Byte.
Import ListNotations.

Local Open Scope Z_scope.

(** ** Outcomes of a call *)

Module Outcome.

(** [struct InvalidMidiData] and [struct InvalidMidiDataLength], both derived
    from [std::runtime_error]. *)
Inductive exception : Type :=
| InvalidMidiData
| InvalidMidiDataLength.

(** What a call can do: return normally, leave by an exception, stop the
    program through a failed [assert], or have no defined behaviour (a read
    or an iterator step outside the caller's array).  The first three carry
    the state of the array at that point. *)
Inductive outcome (S A : Type) : Type :=
| Normal (a : A) (s : S)
| Thrown (e : exception) (s : S)
| Aborted (s : S)
| Undefined.

Arguments Normal {S A} a s.
Arguments Thrown {S A} e s.
Arguments Aborted {S A} s.
Arguments Undefined {S A}.

Definition M (S A : Type) : Type := S -> outcome S A.

Definition ret {S A} (a : A) : M S A := fun s => Normal a s.

Definition bind {S A B} (c : M S A) (k : A -> M S B) : M S B :=
  fun s =>
    match c s with
    | Normal a s' => k a s'
    | Thrown e s' => Thrown e s'
    | Aborted s' => Aborted s'
    | Undefined => Undefined
    end.

Definition throw {S A} (e : exception) : M S A := fun s => Thrown e s.

Definition abort {S A} : M S A := fun s => Aborted s.

Definition undefined {S A} : M S A := fun _ => Undefined.

(** The array as the call left it, when the call left one behind. *)
Definition final_state {S A} (o : outcome S A) : option S :=
  match o with
  | Normal _ s | Thrown _ s | Aborted s => Some s
  | Undefined => None
  end.

(** The call did not change the array: whenever it returns, throws or
    aborts, the array is the one it started from.  (Nothing is said of a
    call without defined behaviour.) *)
Definition unchanged {S A} (s : S) (o : outcome S A) : Prop :=
  match o with
  | Normal _ s' | Thrown _ s' | Aborted s' => s' = s
  | Undefined => True
  end.

End Outcome.

Import Outcome.

Declare Scope chrds_scope.
Delimit Scope chrds_scope with chrds.

Notation "x <- c ;; k" := (bind c (fun x => k))
  (at level 61, c at next level, right associativity) : chrds_scope.
Notation "c ;;; k" := (bind c (fun _ => k))
  (at level 61, right associativity) : chrds_scope.

Local Open Scope chrds_scope.

(** ** Integral conversions *)

(** [static_cast<std::uint8_t>], [static_cast<std::uint16_t>] and
    [static_cast<std::int16_t>] on the mathematical value of the operand:
    reduction modulo 2^8 and 2^16, the last one into [-2^15, 2^15). *)
Definition static_cast_uint8 (z : Z) : Z := z mod 2 ^ 8.

Definition static_cast_uint16 (z : Z) : Z := z mod 2 ^ 16.

Definition static_cast_int16 (z : Z) : Z := (z + 2 ^ 15) mod 2 ^ 16 - 2 ^ 15.

(** [concept ByteSized]: a type of size one that converts to [std::uint8_t]
    and to [std::uint16_t].  An object of such a type holds one of at most
    256 values; [byte_value] is that value as an integer, negative for the
    negative values of a signed type. *)
Class ByteSized (T : Type) : Type := {
  byte_value : T -> Z
}.

(** [std::uint8_t] / [unsigned char] / [std::byte]: the values 0..255. *)
Definition uint8_t : Type := Init.Byte.byte.

Definition uint8_value (b : uint8_t) : Z := Z.of_N (Byte.to_N b).

#[export] Instance ByteSized_uint8_t : ByteSized uint8_t :=
  {| byte_value := uint8_value |}.

(** [std::int8_t] / [signed char]: the same eight bits read in two's
    complement, the values -128..127. *)
Record int8_t : Type := mk_int8_t { int8_bits : Init.Byte.byte }.

Definition int8_value (b : int8_t) : Z :=
  let u := Z.of_N (Byte.to_N (int8_bits b)) in
  if u <? 128 then u else u - 256.

#[export] Instance ByteSized_int8_t : ByteSized int8_t :=
  {| byte_value := int8_value |}.

(** ** The enumeration *)

Inductive MessageKind : Type :=
| NoteOff
| NoteOn
| PolyAftertouch
| ControlChange
| ProgramChange
| ChannelAftertouch
| PitchWheel
| SystemExclusive.

Definition MessageKind_eqb (a b : MessageKind) : bool :=
  match a, b with
  | NoteOff, NoteOff | NoteOn, NoteOn | PolyAftertouch, PolyAftertouch
  | ControlChange, ControlChange | ProgramChange, ProgramChange
  | ChannelAftertouch, ChannelAftertouch | PitchWheel, PitchWheel
  | SystemExclusive, SystemExclusive => true
  | _, _ => false
  end.

(** The value of an enumerator, [static_cast<int>(kind)]: the enumerators
    are declared without initialisers and count from zero. *)
Definition MessageKind_value (k : MessageKind) : Z :=
  match k with
  | NoteOff => 0
  | NoteOn => 1
  | PolyAftertouch => 2
  | ControlChange => 3
  | ProgramChange => 4
  | ChannelAftertouch => 5
  | PitchWheel => 6
  | SystemExclusive => 7
  end.

(** [std::ranges::find(range, value)]: the position of the first element
    equal to [value], or the length of the range (its [end()]) when there
    is none. *)
Fixpoint ranges_find (range : list MessageKind) (value : MessageKind) : nat :=
  match range with
  | [] => O
  | x :: rest =>
      if MessageKind_eqb x value then O else S (ranges_find rest value)
  end.

(** ** Memory and spans *)

Section Memory.

Variable T : Type.

(** The caller's array. *)
Definition memory : Type := list T.

Definition Mem (A : Type) : Type := M memory A.

(** Reading the object at offset [p]; there is none outside the array. *)
Definition load (p : Z) : Mem T :=
  fun m =>
    if p <? 0 then Undefined
    else match nth_error m (Z.to_nat p) with
         | Some t => Normal t m
         | None => Undefined
         end.

(** Writing the object at offset [p].  The header never does; the
    operation is part of the memory model only. *)
Definition store (p : Z) (t : T) : Mem unit :=
  fun m =>
    if (0 <=? p) && (p <? Z.of_nat (length m))
    then Normal tt (firstn (Z.to_nat p) m ++ t :: skipn (S (Z.to_nat p)) m)
    else Undefined.

(** Pointer arithmetic: the result must stay inside the array or one past
    its end. *)
Definition ptr_add (p d : Z) : Mem Z :=
  fun m =>
    if (0 <=? p + d) && (p + d <=? Z.of_nat (length m))
    then Normal (p + d) m
    else Undefined.

(** [std::span<T>]: a pointer and a size. *)
Record span : Type := mk_span { span_data : Z; span_size : Z }.

(** [std::span<T, 3>]: a pointer; the extent is part of the type. *)
Record span3 : Type := mk_span3 { span3_data : Z }.

(** [std::span<T, 3>::operator[]]. *)
Definition span3_at (s : span3) (idx : Z) : Mem T :=
  if (0 <=? idx) && (idx <? 3) then load (span3_data s + idx) else undefined.

(** [std::span<T, 3>(first, count)]: [first, first + count) has to be a
    range of the array and [count] the extent. *)
Definition span3_of_iter (first count : Z) : Mem span3 :=
  fun m =>
    if (count =? 3) && (0 <=? first) && (first + count <=? Z.of_nat (length m))
    then Normal (mk_span3 first) m
    else Undefined.

Definition span_begin (s : span) : Z := span_data s.

Definition span_end (s : span) : Z := span_data s + span_size s.

End Memory.

Arguments load {T} p.
Arguments store {T} p t.
Arguments ptr_add {T} p d.
Arguments span3_at {T} s idx.
Arguments span3_of_iter {T} first count.

(** ** [class MessageView] *)

Module MessageView.

Section Members.

Context {T : Type} `{ByteSized T}.

(** Defined when the header is compiled with [NDEBUG]: [assert] then
    expands to nothing and its argument is not evaluated. *)
Variable NDEBUG : bool.

(** [CHRDS_ASSERT(expression)], that is [assert(expression)]. *)
Definition CHRDS_ASSERT (expression : Mem T bool) : Mem T unit :=
  if NDEBUG then ret tt
  else (ok <- expression ;; if ok : bool then ret tt else abort).

Record MessageView : Type := mk_MessageView { _data : span3 }.

(** The constructor, [noexcept]: it keeps the span and reads nothing. *)
Definition construct (data : span3) : Mem T MessageView :=
  ret (mk_MessageView data).

Definition status (v : MessageView) : Mem T T := span3_at (_data v) 0.

Definition data_0 (v : MessageView) : Mem T T := span3_at (_data v) 1.

Definition data_1 (v : MessageView) : Mem T T := span3_at (_data v) 2.

Definition kind (v : MessageView) : Mem T MessageKind :=
  s <- status v ;;
  match Z.land (static_cast_uint8 (byte_value s)) 0xf0 with
  | 0x80 => ret NoteOff
  | 0x90 => ret NoteOn
  | 0xA0 => ret PolyAftertouch
  | 0xB0 => ret ControlChange
  | 0xC0 => ret ProgramChange
  | 0xD0 => ret ChannelAftertouch
  | 0xE0 => ret PitchWheel
  | 0xF0 => ret SystemExclusive
  | _ => throw InvalidMidiData
  end.

Definition channel (v : MessageView) : Mem T Z :=
  CHRDS_ASSERT (k <- kind v ;; ret (negb (MessageKind_eqb k SystemExclusive))) ;;;
  s <- status v ;;
  ret (Z.land (static_cast_uint8 (byte_value s)) 0x0f).

Definition note (v : MessageView) : Mem T Z :=
  let expected_kinds := [NoteOff; NoteOn; PolyAftertouch] in
  CHRDS_ASSERT (k <- kind v ;;
                ret (negb (Nat.eqb (ranges_find expected_kinds k)
                                   (length expected_kinds)))) ;;;
  d <- data_0 v ;;
  ret (static_cast_uint8 (byte_value d)).

Definition velocity (v : MessageView) : Mem T Z :=
  let expected_kinds := [NoteOff; NoteOn] in
  CHRDS_ASSERT (k <- kind v ;;
                ret (negb (Nat.eqb (ranges_find expected_kinds k)
                                   (length expected_kinds)))) ;;;
  d <- data_1 v ;;
  ret (static_cast_uint8 (byte_value d)).

Definition pressure (v : MessageView) : Mem T Z :=
  k <- kind v ;;
  match k with
  | PolyAftertouch => d <- data_0 v ;; ret (static_cast_uint8 (byte_value d))
  | ChannelAftertouch => d <- data_1 v ;; ret (static_cast_uint8 (byte_value d))
  | _ => CHRDS_ASSERT (ret false) ;;; ret 0
  end.

Definition cc_controller (v : MessageView) : Mem T Z :=
  CHRDS_ASSERT (k <- kind v ;; ret (MessageKind_eqb k ControlChange)) ;;;
  d <- data_0 v ;;
  ret (static_cast_uint8 (byte_value d)).

Definition cc_value (v : MessageView) : Mem T Z :=
  CHRDS_ASSERT (k <- kind v ;; ret (MessageKind_eqb k ControlChange)) ;;;
  d <- data_1 v ;;
  ret (static_cast_uint8 (byte_value d)).

Definition program_number (v : MessageView) : Mem T Z :=
  CHRDS_ASSERT (k <- kind v ;; ret (MessageKind_eqb k ProgramChange)) ;;;
  d <- data_0 v ;;
  ret (static_cast_uint8 (byte_value d)).

(** The two operands are converted to [std::uint16_t], promoted to [int]
    for the shift and the sum (which fit: at most 0xFFFF00 + 0xFFFF), and
    the sum converted to [std::int16_t]. *)
Definition pitch_wheel (v : MessageView) : Mem T Z :=
  hi <- data_1 v ;;
  lo <- data_0 v ;;
  ret (static_cast_int16
         (Z.shiftl (static_cast_uint16 (byte_value hi)) 8
          + static_cast_uint16 (byte_value lo))).

End Members.

End MessageView.

(** ** [class MessagesView] *)

Module MessagesView.

Section Members.

Context {T : Type} `{ByteSized T}.

Record MessagesView : Type := mk_MessagesView { _data : span }.

(** The constructor: [data.size() % 3] on the unsigned size. *)
Definition construct (data : span) : Mem T MessagesView :=
  if negb (span_size data mod 3 =? 0)
  then throw InvalidMidiDataLength
  else ret (mk_MessagesView data).

(** *** [struct MessageIterator]

    The operators that modify [*this] return the modified iterator; the
    postfix ones return the copy first and the modified iterator second. *)

Record MessageIterator : Type := mk_MessageIterator { _span_it : Z }.

(** [operator++()] *)
Definition pre_increment (it : MessageIterator) : Mem T MessageIterator :=
  p <- ptr_add (_span_it it) 3 ;;
  ret (mk_MessageIterator p).

(** [operator++(int)] *)
Definition post_increment (it : MessageIterator)
  : Mem T (MessageIterator * MessageIterator) :=
  let copy := it in
  it' <- pre_increment it ;;
  ret (copy, it').

(** [operator--()] *)
Definition pre_decrement (it : MessageIterator) : Mem T MessageIterator :=
  p <- ptr_add (_span_it it) (- 3) ;;
  ret (mk_MessageIterator p).

(** [operator--(int)] *)
Definition post_decrement (it : MessageIterator)
  : Mem T (MessageIterator * MessageIterator) :=
  let copy := it in
  it' <- pre_decrement it ;;
  ret (copy, it').

(** [operator-(const MessageIterator&)]: the division is the one of C++,
    rounding towards zero. *)
Definition distance (it other : MessageIterator) : Mem T Z :=
  ret (Z.quot (_span_it it - _span_it other) 3).

(** [operator-(difference_type)] *)
Definition minus (it : MessageIterator) (delta : Z) : Mem T MessageIterator :=
  p <- ptr_add (_span_it it) (- (3 * delta)) ;;
  ret (mk_MessageIterator p).

(** [friend operator-(difference_type, const MessageIterator&)] *)
Definition minus_friend (delta : Z) (iter : MessageIterator)
  : Mem T MessageIterator :=
  minus iter delta.

(** [operator-=(difference_type)] *)
Definition minus_assign (it : MessageIterator) (delta : Z)
  : Mem T MessageIterator :=
  p <- ptr_add (_span_it it) (- (delta * 3)) ;;
  ret (mk_MessageIterator p).

(** [operator+(difference_type)] *)
Definition plus (it : MessageIterator) (delta : Z) : Mem T MessageIterator :=
  p <- ptr_add (_span_it it) (3 * delta) ;;
  ret (mk_MessageIterator p).

(** [friend operator+(difference_type, const MessageIterator&)] *)
Definition plus_friend (delta : Z) (iter : MessageIterator)
  : Mem T MessageIterator :=
  plus iter delta.

(** [operator+=(difference_type)] *)
Definition plus_assign (it : MessageIterator) (delta : Z)
  : Mem T MessageIterator :=
  p <- ptr_add (_span_it it) (delta * 3) ;;
  ret (mk_MessageIterator p).

(** [operator*()] *)
Definition dereference (it : MessageIterator) : Mem T MessageView.MessageView :=
  s <- span3_of_iter (_span_it it) 3 ;;
  ret (MessageView.mk_MessageView s).

(** [operator[](difference_type)] *)
Definition subscript (it : MessageIterator) (delta : Z)
  : Mem T MessageView.MessageView :=
  it' <- plus it delta ;;
  dereference it'.

(** The defaulted [operator<=>]: the comparison of the two span iterators. *)
Definition three_way (a b : MessageIterator) : comparison :=
  Z.compare (_span_it a) (_span_it b).

(** Modelled from the spec: the header declares no [begin()], [end()] or
    [size()] for [MessagesView]; the spec has the sequence start at offset 0
    of the buffer, advance by three bytes per element and hold
    [length / 3] elements.  The first position is the iterator over the
    span's [begin()], the position past the last one the iterator over its
    [end()]. *)
Definition first_position (v : MessagesView) : MessageIterator :=
  mk_MessageIterator (span_begin (_data v)).

(** Modelled from the spec: the position after the last element (see
    [first_position]); the header declares no [end()]. *)
Definition past_the_end (v : MessagesView) : MessageIterator :=
  mk_MessageIterator (span_end (_data v)).

(** [for (k = 0; k < n; ++k) ++it;] *)
Fixpoint step_forward (n : nat) (it : MessageIterator)
  : Mem T MessageIterator :=
  match n with
  | O => ret it
  | S n' => it' <- pre_increment it ;; step_forward n' it'
  end.

End Members.

Arguments construct {T} data.
Arguments pre_increment {T} it.
Arguments post_increment {T} it.
Arguments pre_decrement {T} it.
Arguments post_decrement {T} it.
Arguments distance {T} it other.
Arguments minus {T} it delta.
Arguments minus_friend {T} delta iter.
Arguments minus_assign {T} it delta.
Arguments plus {T} it delta.
Arguments plus_friend {T} delta iter.
Arguments plus_assign {T} it delta.
Arguments dereference {T} it.
Arguments subscript {T} it delta.
Arguments step_forward {T} n it.

End MessagesView.

(** * Properties of the two views *)

(** ** Vocabulary of the statements *)

(** The message view over the three bytes that start at offset [p]. *)
Definition view_at (p : Z) : MessageView.MessageView :=
  MessageView.mk_MessageView (mk_span3 p).

(** The three objects at offsets [p], [p + 1] and [p + 2] of the array, when
    all three lie inside it: a 3-byte window [(status, data_0, data_1)]. *)
Definition window {T : Type} (m : memory T) (p : Z) : option (T * T * T) :=
  if p <? 0 then None
  else match nth_error m (Z.to_nat p),
             nth_error m (Z.to_nat (p + 1)),
             nth_error m (Z.to_nat (p + 2)) with
       | Some s, Some d0, Some d1 => Some (s, d0, d1)
       | _, _, _ => None
       end.

(** The mapping table of the specification, from the top nibble of the
    status byte to the kind of message. *)
Definition kind_of_top_nibble (nibble : Z) : option MessageKind :=
  match nibble with
  | 0x8 => Some NoteOff
  | 0x9 => Some NoteOn
  | 0xA => Some PolyAftertouch
  | 0xB => Some ControlChange
  | 0xC => Some ProgramChange
  | 0xD => Some ChannelAftertouch
  | 0xE => Some PitchWheel
  | 0xF => Some SystemExclusive
  | _ => None
  end.

(** A computation that only reads the array. *)
Definition read_only {T A : Type} (c : Mem T A) : Prop :=
  forall m : memory T, unchanged m (c m).

(** The span designates a range of the array. *)
Definition span_inside {T : Type} (m : memory T) (data : span) : Prop :=
  0 <= span_data data /\ 0 <= span_size data /\
  span_data data + span_size data <= Z.of_nat (length m).

(** The position of element [i] of a sequence view: [i] elements, that is
    [3 * i] bytes, after the first one. *)
Definition position (v : MessagesView.MessagesView) (i : Z)
  : MessagesView.MessageIterator :=
  MessagesView.mk_MessageIterator
    (span_begin (MessagesView._data v) + 3 * i).

(** The operations of the two views and of the iterator, each with its
    arguments. *)
Inductive operation : Type :=
| View_construct (data : span3)
| View_status (v : MessageView.MessageView)
| View_data_0 (v : MessageView.MessageView)
| View_data_1 (v : MessageView.MessageView)
| View_kind (v : MessageView.MessageView)
| View_channel (v : MessageView.MessageView)
| View_note (v : MessageView.MessageView)
| View_velocity (v : MessageView.MessageView)
| View_pressure (v : MessageView.MessageView)
| View_cc_controller (v : MessageView.MessageView)
| View_cc_value (v : MessageView.MessageView)
| View_program_number (v : MessageView.MessageView)
| View_pitch_wheel (v : MessageView.MessageView)
| Sequence_construct (data : span)
| Iterator_pre_increment (it : MessagesView.MessageIterator)
| Iterator_post_increment (it : MessagesView.MessageIterator)
| Iterator_pre_decrement (it : MessagesView.MessageIterator)
| Iterator_post_decrement (it : MessagesView.MessageIterator)
| Iterator_distance (it other : MessagesView.MessageIterator)
| Iterator_minus (it : MessagesView.MessageIterator) (delta : Z)
| Iterator_minus_friend (delta : Z) (it : MessagesView.MessageIterator)
| Iterator_minus_assign (it : MessagesView.MessageIterator) (delta : Z)
| Iterator_plus (it : MessagesView.MessageIterator) (delta : Z)
| Iterator_plus_friend (delta : Z) (it : MessagesView.MessageIterator)
| Iterator_plus_assign (it : MessagesView.MessageIterator) (delta : Z)
| Iterator_dereference (it : MessagesView.MessageIterator)
| Iterator_subscript (it : MessagesView.MessageIterator) (delta : Z)
| Iterator_compare (a b : MessagesView.MessageIterator)
| Iterator_step_forward (n : nat) (it : MessagesView.MessageIterator).

Definition result (T : Type) (op : operation) : Type :=
  match op with
  | View_construct _ => MessageView.MessageView
  | View_status _ | View_data_0 _ | View_data_1 _ => T
  | View_kind _ => MessageKind
  | View_channel _ | View_note _ | View_velocity _ | View_pressure _
  | View_cc_controller _ | View_cc_value _ | View_program_number _
  | View_pitch_wheel _ => Z
  | Sequence_construct _ => MessagesView.MessagesView
  | Iterator_pre_increment _ | Iterator_pre_decrement _
  | Iterator_minus _ _ | Iterator_minus_friend _ _ | Iterator_minus_assign _ _
  | Iterator_plus _ _ | Iterator_plus_friend _ _ | Iterator_plus_assign _ _
  | Iterator_step_forward _ _ => MessagesView.MessageIterator
  | Iterator_post_increment _ | Iterator_post_decrement _ =>
      (MessagesView.MessageIterator * MessagesView.MessageIterator)%type
  | Iterator_distance _ _ => Z
  | Iterator_dereference _ | Iterator_subscript _ _ => MessageView.MessageView
  | Iterator_compare _ _ => comparison
  end.

(** Running an operation on the array. *)
Definition run {T : Type} `{ByteSized T} (NDEBUG : bool) (op : operation)
  : Mem T (result T op) :=
  match op return Mem T (result T op) with
  | View_construct data => MessageView.construct data
  | View_status v => MessageView.status v
  | View_data_0 v => MessageView.data_0 v
  | View_data_1 v => MessageView.data_1 v
  | View_kind v => MessageView.kind v
  | View_channel v => MessageView.channel NDEBUG v
  | View_note v => MessageView.note NDEBUG v
  | View_velocity v => MessageView.velocity NDEBUG v
  | View_pressure v => MessageView.pressure NDEBUG v
  | View_cc_controller v => MessageView.cc_controller NDEBUG v
  | View_cc_value v => MessageView.cc_value NDEBUG v
  | View_program_number v => MessageView.program_number NDEBUG v
  | View_pitch_wheel v => MessageView.pitch_wheel v
  | Sequence_construct data => MessagesView.construct data
  | Iterator_pre_increment it => MessagesView.pre_increment it
  | Iterator_post_increment it => MessagesView.post_increment it
  | Iterator_pre_decrement it => MessagesView.pre_decrement it
  | Iterator_post_decrement it => MessagesView.post_decrement it
  | Iterator_distance it other => MessagesView.distance it other
  | Iterator_minus it delta => MessagesView.minus it delta
  | Iterator_minus_friend delta it => MessagesView.minus_friend delta it
  | Iterator_minus_assign it delta => MessagesView.minus_assign it delta
  | Iterator_plus it delta => MessagesView.plus it delta
  | Iterator_plus_friend delta it => MessagesView.plus_friend delta it
  | Iterator_plus_assign it delta => MessagesView.plus_assign it delta
  | Iterator_dereference it => MessagesView.dereference it
  | Iterator_subscript it delta => MessagesView.subscript it delta
  | Iterator_compare a b => ret (MessagesView.three_way a b)
  | Iterator_step_forward n it => MessagesView.step_forward n it
  end.

(** ** Conversions and bytes *)

Lemma static_cast_uint8_range (z : Z) : 0 <= static_cast_uint8 z < 256.
Proof. unfold static_cast_uint8. apply Z.mod_pos_bound. reflexivity. Qed.

Lemma static_cast_uint8_small (z : Z) :
  0 <= z <= 255 -> static_cast_uint8 z = z.
Proof. intros Hz. unfold static_cast_uint8. apply Z.mod_small. lia. Qed.

Lemma static_cast_uint16_small (z : Z) :
  0 <= z <= 65535 -> static_cast_uint16 z = z.
Proof. intros Hz. unfold static_cast_uint16. apply Z.mod_small. lia. Qed.

Lemma static_cast_int16_range (z : Z) :
  -32768 <= static_cast_int16 z < 32768.
Proof.
  unfold static_cast_int16.
  pose proof (Z.mod_pos_bound (z + 2 ^ 15) (2 ^ 16) eq_refl). lia.
Qed.

Lemma static_cast_int16_bits (z : Z) :
  static_cast_int16 z mod 2 ^ 16 = z mod 2 ^ 16.
Proof.
  unfold static_cast_int16.
  rewrite Zminus_mod, Zmod_mod, <- Zminus_mod.
  f_equal. lia.
Qed.

Lemma uint8_value_range (b : uint8_t) : 0 <= uint8_value b <= 255.
Proof. unfold uint8_value. pose proof (Byte.to_N_bounded b). lia. Qed.

Lemma int8_value_range (b : int8_t) : -128 <= int8_value b <= 127.
Proof.
  unfold int8_value. pose proof (Byte.to_N_bounded (int8_bits b)).
  destruct (Z.ltb_spec (Z.of_N (Byte.to_N (int8_bits b))) 128); lia.
Qed.

(** A property of bytes that a program decides holds of every byte once it
    holds of the 256 of them. *)
Lemma forall_bytes (P : Z -> bool) :
  forallb P (map Z.of_nat (seq 0 256)) = true ->
  forall b : Z, 0 <= b < 256 -> P b = true.
Proof.
  intros Hall b Hb.
  rewrite forallb_forall in Hall. apply Hall.
  apply in_map_iff. exists (Z.to_nat b). split.
  - lia.
  - apply in_seq. lia.
Qed.

(** The selector of the [switch] in [kind()] is sixteen times the top
    nibble, and the top bit of a byte is set when that nibble is 8 or more. *)
Lemma status_nibbles (b : Z) :
  0 <= b < 256 ->
  0 <= Z.shiftr b 4 < 16 /\
  Z.land b 0xf0 = 16 * Z.shiftr b 4 /\
  Z.testbit b 7 = (8 <=? Z.shiftr b 4).
Proof.
  intros Hb.
  pose proof (forall_bytes
    (fun b => (0 <=? Z.shiftr b 4) && (Z.shiftr b 4 <? 16)
              && (Z.land b 0xf0 =? 16 * Z.shiftr b 4)
              && Bool.eqb (Z.testbit b 7) (8 <=? Z.shiftr b 4))
    eq_refl b Hb) as Hp.
  cbv beta in Hp.
  repeat rewrite andb_true_iff in Hp.
  destruct Hp as [[[H0 H1] H2] H3].
  apply Z.leb_le in H0. apply Z.ltb_lt in H1. apply Z.eqb_eq in H2.
  apply Bool.eqb_prop in H3. auto.
Qed.

(** The low nibble does not depend on the conversion to [std::uint8_t]. *)
Lemma low_nibble_of_value (z : Z) :
  Z.land (static_cast_uint8 z) 0x0f = Z.land z 0x0f.
Proof.
  unfold static_cast_uint8.
  change 0x0f with (Z.ones 4).
  rewrite !Z.land_ones by lia.
  change (2 ^ 8) with 256. change (2 ^ 4) with 16.
  Z.div_mod_to_equations. lia.
Qed.

(** ** Reading a window *)

Section Windows.

Context {T : Type} `{ByteSized T}.

Variables (m : memory T) (p : Z) (s d0 d1 : T).

Hypothesis Hwindow : window m p = Some (s, d0, d1).

Lemma window_cells :
  0 <= p /\
  nth_error m (Z.to_nat p) = Some s /\
  nth_error m (Z.to_nat (p + 1)) = Some d0 /\
  nth_error m (Z.to_nat (p + 2)) = Some d1.
Proof.
  unfold window in Hwindow.
  destruct (Z.ltb_spec p 0) as [Hneg | Hpos]; [discriminate |].
  destruct (nth_error m (Z.to_nat p)) as [a |]; [| discriminate].
  destruct (nth_error m (Z.to_nat (p + 1))) as [b |]; [| discriminate].
  destruct (nth_error m (Z.to_nat (p + 2))) as [c |]; [| discriminate].
  inversion Hwindow; subst. auto.
Qed.

Lemma window_inside : 0 <= p /\ p + 3 <= Z.of_nat (length m).
Proof.
  destruct window_cells as (Hp & _ & _ & H2).
  assert (Hlt : (Z.to_nat (p + 2) < length m)%nat).
  { apply nth_error_Some. rewrite H2. discriminate. }
  lia.
Qed.

Lemma load_cell (q : Z) (t : T) :
  0 <= q -> nth_error m (Z.to_nat q) = Some t -> load q m = Normal t m.
Proof.
  intros Hq Hnth. unfold load.
  destruct (Z.ltb_spec q 0) as [Hneg | _]; [lia |].
  rewrite Hnth. reflexivity.
Qed.

Lemma window_status : MessageView.status (view_at p) m = Normal s m.
Proof.
  destruct window_cells as (Hp & H0 & _ & _).
  unfold MessageView.status, span3_at. simpl.
  rewrite Z.add_0_r. apply load_cell; assumption.
Qed.

Lemma window_data_0 : MessageView.data_0 (view_at p) m = Normal d0 m.
Proof.
  destruct window_cells as (Hp & _ & H1 & _).
  unfold MessageView.data_0, span3_at. simpl.
  apply load_cell; [lia | assumption].
Qed.

Lemma window_data_1 : MessageView.data_1 (view_at p) m = Normal d1 m.
Proof.
  destruct window_cells as (Hp & _ & _ & H2).
  unfold MessageView.data_1, span3_at. simpl.
  apply load_cell; [lia | assumption].
Qed.

(** [kind()] on a window is the [switch] on its status byte. *)
Lemma kind_switch :
  MessageView.kind (view_at p) m =
  match Z.land (static_cast_uint8 (byte_value s)) 0xf0 with
  | 0x80 => Normal NoteOff m
  | 0x90 => Normal NoteOn m
  | 0xA0 => Normal PolyAftertouch m
  | 0xB0 => Normal ControlChange m
  | 0xC0 => Normal ProgramChange m
  | 0xD0 => Normal ChannelAftertouch m
  | 0xE0 => Normal PitchWheel m
  | 0xF0 => Normal SystemExclusive m
  | _ => Thrown InvalidMidiData m
  end.
Proof.
  unfold MessageView.kind, bind. rewrite window_status.
  destruct (Z.land (static_cast_uint8 (byte_value s)) 0xf0)
    as [| q | q]; try reflexivity.
  do 8 (destruct q as [q | q |]; try reflexivity).
Qed.

(** Every outcome of [kind()] on a window is one of two: a kind, or the
    exception; the array is the one it started from. *)
Lemma kind_outcomes :
  (exists k, MessageView.kind (view_at p) m = Normal k m) \/
  MessageView.kind (view_at p) m = Thrown InvalidMidiData m.
Proof.
  rewrite kind_switch.
  destruct (Z.land (static_cast_uint8 (byte_value s)) 0xf0)
    as [| q | q]; auto.
  do 8 (destruct q as [q | q |]; eauto).
Qed.

End Windows.

(** ** Sequencing *)

Section Sequencing.

Context {S A B : Type}.

Lemma bind_normal (c : M S A) (k : A -> M S B) (s s' : S) (a : A) :
  c s = Normal a s' -> bind c k s = k a s'.
Proof. intros Hc. unfold bind. rewrite Hc. reflexivity. Qed.

Lemma bind_thrown (c : M S A) (k : A -> M S B) (s s' : S) (e : exception) :
  c s = Thrown e s' -> bind c k s = Thrown e s'.
Proof. intros Hc. unfold bind. rewrite Hc. reflexivity. Qed.

Lemma bind_unchanged (c : M S A) (k : A -> M S B) (s : S) :
  unchanged s (c s) ->
  (forall a, unchanged s (k a s)) ->
  unchanged s (bind c k s).
Proof.
  intros Hc Hk. unfold bind.
  destruct (c s) as [a s' | e s' | s' |]; simpl in *; subst; auto.
Qed.

End Sequencing.

(** ** Assertions *)

Section Assertions.

Context {T : Type}.

Variable NDEBUG : bool.

(** An assertion whose condition evaluates to [true] does nothing, in a
    debug build and in a release build alike. *)
Lemma assert_passes (c : Mem T bool) (m : memory T) :
  c m = Normal true m -> MessageView.CHRDS_ASSERT NDEBUG c m = Normal tt m.
Proof.
  intros Hc. unfold MessageView.CHRDS_ASSERT.
  destruct NDEBUG; [reflexivity |].
  rewrite (bind_normal _ _ _ _ _ Hc). reflexivity.
Qed.

(** The check on the kind that precedes an accessor passes when [kind()]
    returns a kind that the check accepts. *)
Lemma kind_check_passes `{ByteSized T} (v : MessageView.MessageView)
      (accepts : MessageKind -> bool) (k : MessageKind) (m : memory T) :
  MessageView.kind v m = Normal k m ->
  accepts k = true ->
  MessageView.CHRDS_ASSERT NDEBUG
    (k' <- MessageView.kind v ;; ret (accepts k')) m = Normal tt m.
Proof.
  intros Hk Hacc. apply assert_passes.
  rewrite (bind_normal _ _ _ _ _ Hk). unfold ret. rewrite Hacc. reflexivity.
Qed.

End Assertions.

(** ** [MessageView::kind] *)

Section Classification.

Context {T : Type} `{ByteSized T}.

Variables (m : memory T) (p : Z) (s d0 d1 : T).

Hypothesis Hwindow : window m p = Some (s, d0, d1).

Let b : Z := static_cast_uint8 (byte_value s).

(** Top bit set: the nibble is one of 8..15, each of them a case label. *)
Lemma kind_accepts_status_byte :
  Z.testbit b 7 = true ->
  exists k, kind_of_top_nibble (Z.shiftr b 4) = Some k /\
            MessageView.kind (view_at p) m = Normal k m.
Proof.
  intros Hbit.
  destruct (status_nibbles b (static_cast_uint8_range _)) as (Hq & Hsel & Htop).
  rewrite Hbit in Htop. symmetry in Htop. apply Z.leb_le in Htop.
  rewrite (kind_switch m p s d0 d1 Hwindow). fold b. rewrite Hsel.
  assert (Hcases : Z.shiftr b 4 = 8 \/ Z.shiftr b 4 = 9 \/
                   Z.shiftr b 4 = 10 \/ Z.shiftr b 4 = 11 \/
                   Z.shiftr b 4 = 12 \/ Z.shiftr b 4 = 13 \/
                   Z.shiftr b 4 = 14 \/ Z.shiftr b 4 = 15) by lia.
  repeat destruct Hcases as [Hcase | Hcases];
    try rewrite Hcase; try rewrite Hcases; simpl; eexists; split; reflexivity.
Qed.

(** Top bit clear: the nibble is one of 0..7, none of them a case label. *)
Lemma kind_rejects_data_byte :
  Z.testbit b 7 = false ->
  MessageView.kind (view_at p) m = Thrown InvalidMidiData m.
Proof.
  intros Hbit.
  destruct (status_nibbles b (static_cast_uint8_range _)) as (Hq & Hsel & Htop).
  rewrite Hbit in Htop. symmetry in Htop. apply Z.leb_gt in Htop.
  rewrite (kind_switch m p s d0 d1 Hwindow). fold b. rewrite Hsel.
  assert (Hcases : Z.shiftr b 4 = 0 \/ Z.shiftr b 4 = 1 \/
                   Z.shiftr b 4 = 2 \/ Z.shiftr b 4 = 3 \/
                   Z.shiftr b 4 = 4 \/ Z.shiftr b 4 = 5 \/
                   Z.shiftr b 4 = 6 \/ Z.shiftr b 4 = 7) by lia.
  repeat destruct Hcases as [Hcase | Hcases];
    try rewrite Hcase; try rewrite Hcases; reflexivity.
Qed.

End Classification.

(** C1.  On every 3-byte window, [kind()] has exactly two outcomes, decided
    by the top bit of the status byte: when the bit is set, the kind that the
    mapping table gives for the top nibble (0x8 NoteOff, 0x9 NoteOn, 0xA
    PolyAftertouch, 0xB ControlChange, 0xC ProgramChange, 0xD
    ChannelAftertouch, 0xE PitchWheel, 0xF SystemExclusive); when it is
    clear, the exception [InvalidMidiData]. *)
Theorem kind_by_top_nibble {T : Type} `{ByteSized T}
        (m : memory T) (p : Z) (s d0 d1 : T) :
  window m p = Some (s, d0, d1) ->
  let b := static_cast_uint8 (byte_value s) in
  (Z.testbit b 7 = true ->
   exists k, kind_of_top_nibble (Z.shiftr b 4) = Some k /\
             MessageView.kind (view_at p) m = Normal k m) /\
  (Z.testbit b 7 = false ->
   MessageView.kind (view_at p) m = Thrown InvalidMidiData m) /\
  ((exists k, MessageView.kind (view_at p) m = Normal k m) \/
   MessageView.kind (view_at p) m = Thrown InvalidMidiData m).
Proof.
  intros Hw b. split; [| split].
  - exact (kind_accepts_status_byte m p s d0 d1 Hw).
  - exact (kind_rejects_data_byte m p s d0 d1 Hw).
  - exact (kind_outcomes m p s d0 d1 Hw).
Qed.

Lemma kind_by_top_nibble_witness :
  window (T := uint8_t) [x90; x3c; x64] 0
  = Some (x90, x3c, x64) /\
  (exists k, kind_of_top_nibble 9 = Some k /\
             MessageView.kind (T := uint8_t) (view_at 0)
               [x90; x3c; x64]
             = Normal k [x90; x3c; x64]).
Proof.
  split; [reflexivity |].
  exact (proj1 (kind_by_top_nibble (T := uint8_t)
                  [x90; x3c; x64] 0 x90 x3c x64
                  eq_refl) eq_refl).
Defined.

(** ** The accessors that check the kind *)

Section Accessors.

Context {T : Type} `{ByteSized T}.

Variable NDEBUG : bool.

Variables (m : memory T) (p : Z) (s d0 d1 : T).

Hypothesis Hwindow : window m p = Some (s, d0, d1).

Variable k : MessageKind.

Hypothesis Hkind : MessageView.kind (view_at p) m = Normal k m.

Ltac pass_kind_check :=
  erewrite bind_normal
    by (eapply kind_check_passes; [exact Hkind | subst k; reflexivity]).

Ltac read_byte field_eq :=
  rewrite (bind_normal _ _ _ _ _ field_eq); reflexivity.

Lemma channel_returns :
  k <> SystemExclusive ->
  MessageView.channel NDEBUG (view_at p) m
  = Normal (Z.land (static_cast_uint8 (byte_value s)) 0x0f) m.
Proof.
  intros Hk. unfold MessageView.channel.
  erewrite bind_normal
    by (eapply kind_check_passes;
        [exact Hkind | destruct k; try reflexivity; contradiction]).
  read_byte (window_status m p s d0 d1 Hwindow).
Qed.

Lemma note_returns :
  k = NoteOff \/ k = NoteOn \/ k = PolyAftertouch ->
  MessageView.note NDEBUG (view_at p) m
  = Normal (static_cast_uint8 (byte_value d0)) m.
Proof.
  intros [Hk | [Hk | Hk]]; unfold MessageView.note;
    pass_kind_check; read_byte (window_data_0 m p s d0 d1 Hwindow).
Qed.

Lemma velocity_returns :
  k = NoteOff \/ k = NoteOn ->
  MessageView.velocity NDEBUG (view_at p) m
  = Normal (static_cast_uint8 (byte_value d1)) m.
Proof.
  intros [Hk | Hk]; unfold MessageView.velocity;
    pass_kind_check; read_byte (window_data_1 m p s d0 d1 Hwindow).
Qed.

Lemma cc_controller_returns :
  k = ControlChange ->
  MessageView.cc_controller NDEBUG (view_at p) m
  = Normal (static_cast_uint8 (byte_value d0)) m.
Proof.
  intros Hk. unfold MessageView.cc_controller.
  pass_kind_check. read_byte (window_data_0 m p s d0 d1 Hwindow).
Qed.

Lemma cc_value_returns :
  k = ControlChange ->
  MessageView.cc_value NDEBUG (view_at p) m
  = Normal (static_cast_uint8 (byte_value d1)) m.
Proof.
  intros Hk. unfold MessageView.cc_value.
  pass_kind_check. read_byte (window_data_1 m p s d0 d1 Hwindow).
Qed.

Lemma program_number_returns :
  k = ProgramChange ->
  MessageView.program_number NDEBUG (view_at p) m
  = Normal (static_cast_uint8 (byte_value d0)) m.
Proof.
  intros Hk. unfold MessageView.program_number.
  pass_kind_check. read_byte (window_data_0 m p s d0 d1 Hwindow).
Qed.

Lemma pressure_poly :
  k = PolyAftertouch ->
  MessageView.pressure NDEBUG (view_at p) m
  = Normal (static_cast_uint8 (byte_value d0)) m.
Proof.
  intros Hk. unfold MessageView.pressure.
  rewrite (bind_normal _ _ _ _ _ Hkind). subst k.
  read_byte (window_data_0 m p s d0 d1 Hwindow).
Qed.

Lemma pressure_channel :
  k = ChannelAftertouch ->
  MessageView.pressure NDEBUG (view_at p) m
  = Normal (static_cast_uint8 (byte_value d1)) m.
Proof.
  intros Hk. unfold MessageView.pressure.
  rewrite (bind_normal _ _ _ _ _ Hkind). subst k.
  read_byte (window_data_1 m p s d0 d1 Hwindow).
Qed.

End Accessors.

(** ** [MessageView::pitch_wheel] *)

(** With a low byte below 256 the sum of [pitch_wheel()] carries nothing: it
    is the bitwise or of the shifted high byte and the low byte. *)
Lemma shift_add_is_lor (hi lo : Z) :
  0 <= lo < 256 -> Z.shiftl hi 8 + lo = Z.lor (Z.shiftl hi 8) lo.
Proof.
  intros Hlo.
  assert (Hdisjoint : Z.land (Z.shiftl hi 8) lo = 0).
  { apply Z.bits_inj'. intros n Hn.
    rewrite Z.land_spec, Z.bits_0.
    destruct (Z.lt_ge_cases n 8) as [Hlow | Hhigh].
    - rewrite Z.shiftl_spec_low by lia. reflexivity.
    - rewrite <- (Z.mod_small lo (2 ^ 8)) by (change (2 ^ 8) with 256; lia).
      rewrite Z.mod_pow2_bits_high by lia.
      apply andb_false_r. }
  rewrite <- (Z.add_lor_land (Z.shiftl hi 8) lo), Hdisjoint. lia.
Qed.

Lemma recombined_range (hi lo : Z) :
  0 <= hi <= 255 -> 0 <= lo <= 255 ->
  Z.lor (Z.shiftl hi 8) lo = 256 * hi + lo.
Proof.
  intros Hhi Hlo.
  rewrite <- shift_add_is_lor by lia.
  rewrite Z.shiftl_mul_pow2 by lia. change (2 ^ 8) with 256. lia.
Qed.

(** What [pitch_wheel()] computes on a window, whatever the byte type. *)
Lemma pitch_wheel_on_window {T : Type} `{ByteSized T}
      (m : memory T) (p : Z) (s d0 d1 : T) :
  window m p = Some (s, d0, d1) ->
  MessageView.pitch_wheel (view_at p) m
  = Normal (static_cast_int16
              (Z.shiftl (static_cast_uint16 (byte_value d1)) 8
               + static_cast_uint16 (byte_value d0))) m.
Proof.
  intros Hw. unfold MessageView.pitch_wheel.
  rewrite (bind_normal _ _ _ _ _ (window_data_1 m p s d0 d1 Hw)).
  rewrite (bind_normal _ _ _ _ _ (window_data_0 m p s d0 d1 Hw)).
  reflexivity.
Qed.

(** On values in 0..255 the two conversions to [std::uint16_t] change
    nothing and the sum is the bitwise or. *)
Lemma pitch_wheel_on_unsigned {T : Type} `{ByteSized T}
      (m : memory T) (p : Z) (s d0 d1 : T) :
  window m p = Some (s, d0, d1) ->
  0 <= byte_value d0 <= 255 ->
  0 <= byte_value d1 <= 255 ->
  MessageView.pitch_wheel (view_at p) m
  = Normal (static_cast_int16
              (Z.lor (Z.shiftl (byte_value d1) 8) (byte_value d0))) m.
Proof.
  intros Hw H0 H1.
  rewrite (pitch_wheel_on_window m p s d0 d1 Hw).
  rewrite !static_cast_uint16_small by lia.
  rewrite shift_add_is_lor by lia.
  reflexivity.
Qed.

(** The conversion to [std::int16_t] keeps the sixteen bits: below 0x80 in
    the high byte the number is unchanged, from 0x80 on it is the number
    less 65536. *)
Lemma static_cast_int16_of_recombined (hi lo : Z) :
  0 <= hi <= 255 -> 0 <= lo <= 255 ->
  let raw := Z.lor (Z.shiftl hi 8) lo in
  static_cast_int16 raw = if hi <? 0x80 then raw else raw - 65536.
Proof.
  intros Hhi Hlo raw. unfold static_cast_int16, raw.
  rewrite recombined_range by lia.
  change (2 ^ 15) with 32768. change (2 ^ 16) with 65536.
  destruct (Z.ltb_spec hi 0x80) as [Hlt | Hge].
  - rewrite Z.mod_small by lia. lia.
  - replace (256 * hi + lo + 32768)
      with (256 * hi + lo - 32768 + 1 * 65536) by lia.
    rewrite Z.mod_add by lia. rewrite Z.mod_small by lia. lia.
Qed.

(** C2.  For every 3-byte record [(s, d0, d1)] whose two data bytes have
    values in 0..255, [pitch_wheel()] returns [(d1 << 8) | d0] as a signed
    16-bit integer: data_1 is the high byte, data_0 the low byte, and
    nothing is subtracted to rebase the value.  The number returned is the
    one in [-32768, 32768) with the sixteen bits of [(d1 << 8) | d0]. *)
Theorem pitch_wheel_recombines {T : Type} `{ByteSized T}
        (m : memory T) (p : Z) (s d0 d1 : T) :
  window m p = Some (s, d0, d1) ->
  0 <= byte_value d0 <= 255 ->
  0 <= byte_value d1 <= 255 ->
  let raw := Z.lor (Z.shiftl (byte_value d1) 8) (byte_value d0) in
  MessageView.pitch_wheel (view_at p) m = Normal (static_cast_int16 raw) m /\
  -32768 <= static_cast_int16 raw < 32768 /\
  static_cast_int16 raw mod 2 ^ 16 = raw.
Proof.
  intros Hw H0 H1 raw.
  split; [exact (pitch_wheel_on_unsigned m p s d0 d1 Hw H0 H1) |].
  split; [apply static_cast_int16_range |].
  rewrite static_cast_int16_bits. unfold raw.
  rewrite recombined_range by lia.
  apply Z.mod_small. change (2 ^ 16) with 65536. lia.
Qed.

Lemma pitch_wheel_recombines_witness :
  window (T := uint8_t) [xe0; x00; x40] 0 = Some (xe0, x00, x40) /\
  0 <= byte_value x00 <= 255 /\
  0 <= byte_value x40 <= 255 /\
  MessageView.pitch_wheel (T := uint8_t) (view_at 0) [xe0; x00; x40]
  = Normal 0x4000 [xe0; x00; x40].
Proof.
  assert (Hlo : 0 <= byte_value x00 <= 255) by (vm_compute; split; discriminate).
  assert (Hhi : 0 <= byte_value x40 <= 255) by (vm_compute; split; discriminate).
  split; [reflexivity |].
  split; [exact Hlo |].
  split; [exact Hhi |].
  exact (proj1 (pitch_wheel_recombines (T := uint8_t)
                  [xe0; x00; x40] 0 xe0 x00 x40 eq_refl Hlo Hhi)).
Defined.

(** From 0x80 on in the high byte the number returned is negative: the
    window [0xE0, 0x00, 0x80] gives -32768, and [0xE0, 0xFF, 0xFF] gives
    -1. *)
Example pitch_wheel_high_byte_0x80 :
  MessageView.pitch_wheel (T := uint8_t) (view_at 0) [xe0; x00; x80]
  = Normal (-32768) [xe0; x00; x80] /\
  MessageView.pitch_wheel (T := uint8_t) (view_at 0) [xe0; xff; xff]
  = Normal (-1) [xe0; xff; xff].
Proof. split; reflexivity. Qed.

(** With a signed byte type a negative low byte is sign-extended by the
    conversion to [std::uint16_t] and the sum carries into the high byte:
    the bytes [0xE0, 0x80, 0x01] give 128, not 0x0180. *)
Example pitch_wheel_signed_char :
  MessageView.pitch_wheel (T := int8_t) (view_at 0)
    [mk_int8_t xe0; mk_int8_t x80; mk_int8_t x01]
  = Normal 128 [mk_int8_t xe0; mk_int8_t x80; mk_int8_t x01].
Proof. reflexivity. Qed.

(** C7.  [pitch_wheel()] checks no kind: on every 3-byte window it returns a
    signed 16-bit number, in a debug build and in a release build alike
    (it contains no assertion), and it does so on the windows on which
    [kind()] throws [InvalidMidiData] as well. *)
Theorem pitch_wheel_has_no_precondition {T : Type} `{ByteSized T}
        (m : memory T) (p : Z) (s d0 d1 : T) :
  window m p = Some (s, d0, d1) ->
  (exists z, MessageView.pitch_wheel (view_at p) m = Normal z m /\
             -32768 <= z < 32768) /\
  (Z.testbit (static_cast_uint8 (byte_value s)) 7 = false ->
   MessageView.kind (view_at p) m = Thrown InvalidMidiData m /\
   exists z, MessageView.pitch_wheel (view_at p) m = Normal z m).
Proof.
  intros Hw.
  pose proof (pitch_wheel_on_window m p s d0 d1 Hw) as Hpw.
  split.
  - eexists. split; [exact Hpw | apply static_cast_int16_range].
  - intros Hbit. split; [| eexists; exact Hpw].
    exact (kind_rejects_data_byte m p s d0 d1 Hw Hbit).
Qed.

Lemma pitch_wheel_has_no_precondition_witness :
  window (T := uint8_t) [x00; x01; x02] 0 = Some (x00, x01, x02) /\
  MessageView.kind (T := uint8_t) (view_at 0) [x00; x01; x02]
  = Thrown InvalidMidiData [x00; x01; x02] /\
  exists z, MessageView.pitch_wheel (T := uint8_t) (view_at 0) [x00; x01; x02]
            = Normal z [x00; x01; x02].
Proof.
  split; [reflexivity |].
  exact (proj2 (pitch_wheel_has_no_precondition (T := uint8_t)
                  [x00; x01; x02] 0 x00 x01 x02 eq_refl) eq_refl).
Defined.

(** ** Notes, pressure, controllers and programs *)

(** C5.  For every 3-byte record [(s, d0, d1)] on which [kind()] returns
    NoteOn or NoteOff, [note()] returns d0, [velocity()] returns d1 (each as
    the [std::uint8_t] the accessor converts it to) and [channel()] returns
    [s & 0x0F], with and without [NDEBUG]. *)
Theorem note_message_fields {T : Type} `{ByteSized T} (NDEBUG : bool)
        (m : memory T) (p : Z) (s d0 d1 : T) :
  window m p = Some (s, d0, d1) ->
  MessageView.kind (view_at p) m = Normal NoteOn m \/
  MessageView.kind (view_at p) m = Normal NoteOff m ->
  MessageView.note NDEBUG (view_at p) m
  = Normal (static_cast_uint8 (byte_value d0)) m /\
  MessageView.velocity NDEBUG (view_at p) m
  = Normal (static_cast_uint8 (byte_value d1)) m /\
  MessageView.channel NDEBUG (view_at p) m
  = Normal (Z.land (byte_value s) 0x0F) m.
Proof.
  intros Hw [Hk | Hk].
  - split; [| split].
    + apply (note_returns NDEBUG m p s d0 d1 Hw NoteOn Hk). auto.
    + apply (velocity_returns NDEBUG m p s d0 d1 Hw NoteOn Hk). auto.
    + rewrite <- low_nibble_of_value.
      apply (channel_returns NDEBUG m p s d0 d1 Hw NoteOn Hk). discriminate.
  - split; [| split].
    + apply (note_returns NDEBUG m p s d0 d1 Hw NoteOff Hk). auto.
    + apply (velocity_returns NDEBUG m p s d0 d1 Hw NoteOff Hk). auto.
    + rewrite <- low_nibble_of_value.
      apply (channel_returns NDEBUG m p s d0 d1 Hw NoteOff Hk). discriminate.
Qed.

Lemma note_message_fields_witness :
  window (T := uint8_t) [x90; x3c; x64] 0 = Some (x90, x3c, x64) /\
  (MessageView.kind (T := uint8_t) (view_at 0) [x90; x3c; x64]
   = Normal NoteOn [x90; x3c; x64] \/
   MessageView.kind (T := uint8_t) (view_at 0) [x90; x3c; x64]
   = Normal NoteOff [x90; x3c; x64]) /\
  MessageView.note (T := uint8_t) false (view_at 0) [x90; x3c; x64]
  = Normal 60 [x90; x3c; x64] /\
  MessageView.velocity (T := uint8_t) false (view_at 0) [x90; x3c; x64]
  = Normal 100 [x90; x3c; x64] /\
  MessageView.channel (T := uint8_t) false (view_at 0) [x90; x3c; x64]
  = Normal 0 [x90; x3c; x64].
Proof.
  split; [reflexivity |].
  split; [left; reflexivity |].
  exact (note_message_fields (T := uint8_t) false
           [x90; x3c; x64] 0 x90 x3c x64 eq_refl (or_introl eq_refl)).
Defined.

(** C8.  For every 3-byte record on which [kind()] returns PolyAftertouch,
    [pressure()] returns data_0, byte 1 of the window; for every record on
    which it returns ChannelAftertouch, [pressure()] returns data_1, byte 2
    of the window. *)
Theorem pressure_by_kind {T : Type} `{ByteSized T} (NDEBUG : bool)
        (m : memory T) (p : Z) (s d0 d1 : T) :
  window m p = Some (s, d0, d1) ->
  (MessageView.kind (view_at p) m = Normal PolyAftertouch m ->
   nth_error m (Z.to_nat (p + 1)) = Some d0 /\
   MessageView.pressure NDEBUG (view_at p) m
   = Normal (static_cast_uint8 (byte_value d0)) m) /\
  (MessageView.kind (view_at p) m = Normal ChannelAftertouch m ->
   nth_error m (Z.to_nat (p + 2)) = Some d1 /\
   MessageView.pressure NDEBUG (view_at p) m
   = Normal (static_cast_uint8 (byte_value d1)) m).
Proof.
  intros Hw.
  destruct (window_cells m p s d0 d1 Hw) as (_ & _ & Hc1 & Hc2).
  split; intros Hk; (split; [assumption |]).
  - exact (pressure_poly NDEBUG m p s d0 d1 Hw PolyAftertouch Hk eq_refl).
  - exact (pressure_channel NDEBUG m p s d0 d1 Hw ChannelAftertouch Hk eq_refl).
Qed.

Lemma pressure_by_kind_witness :
  window (T := uint8_t) [xd3; x11; x22] 0 = Some (xd3, x11, x22) /\
  MessageView.pressure (T := uint8_t) false (view_at 0) [xd3; x11; x22]
  = Normal 0x22 [xd3; x11; x22].
Proof.
  split; [reflexivity |].
  exact (proj2 (proj2 (pressure_by_kind (T := uint8_t) false
                         [xd3; x11; x22] 0 xd3 x11 x22 eq_refl) eq_refl)).
Defined.

(** C10.  [note()], [velocity()], [cc_controller()], [cc_value()] and
    [program_number()] return their data byte as it is stored: on every
    window that satisfies the accessor's check on the kind the result is
    the byte converted to [std::uint8_t], nothing masks bit 7 and nothing
    checks the range, so that a data byte of value 128..255 comes back
    unchanged. *)
Theorem data_bytes_come_back_unmasked {T : Type} `{ByteSized T}
        (NDEBUG : bool) (m : memory T) (p : Z) (s d0 d1 : T) (k : MessageKind) :
  window m p = Some (s, d0, d1) ->
  MessageView.kind (view_at p) m = Normal k m ->
  let raw (d : T) := static_cast_uint8 (byte_value d) in
  (k = NoteOff \/ k = NoteOn \/ k = PolyAftertouch ->
   MessageView.note NDEBUG (view_at p) m = Normal (raw d0) m) /\
  (k = NoteOff \/ k = NoteOn ->
   MessageView.velocity NDEBUG (view_at p) m = Normal (raw d1) m) /\
  (k = ControlChange ->
   MessageView.cc_controller NDEBUG (view_at p) m = Normal (raw d0) m /\
   MessageView.cc_value NDEBUG (view_at p) m = Normal (raw d1) m) /\
  (k = ProgramChange ->
   MessageView.program_number NDEBUG (view_at p) m = Normal (raw d0) m) /\
  (forall d : T, 128 <= byte_value d <= 255 ->
                 raw d = byte_value d /\ Z.testbit (raw d) 7 = true).
Proof.
  intros Hw Hk raw.
  split; [exact (note_returns NDEBUG m p s d0 d1 Hw k Hk) |].
  split; [exact (velocity_returns NDEBUG m p s d0 d1 Hw k Hk) |].
  split.
  { intros Hcc. split.
    - exact (cc_controller_returns NDEBUG m p s d0 d1 Hw k Hk Hcc).
    - exact (cc_value_returns NDEBUG m p s d0 d1 Hw k Hk Hcc). }
  split; [exact (program_number_returns NDEBUG m p s d0 d1 Hw k Hk) |].
  intros d Hd. unfold raw.
  rewrite static_cast_uint8_small by lia.
  split; [reflexivity |].
  pose proof (forall_bytes
    (fun b => (b <? 128) || Z.testbit b 7) eq_refl (byte_value d)) as Hbit.
  cbv beta in Hbit.
  destruct (Z.ltb_spec (byte_value d) 128) as [Hlt | Hge]; [lia |].
  apply Hbit. lia.
Qed.

Lemma data_bytes_come_back_unmasked_witness :
  window (T := uint8_t) [xb0; xff; x80] 0 = Some (xb0, xff, x80) /\
  MessageView.kind (T := uint8_t) (view_at 0) [xb0; xff; x80]
  = Normal ControlChange [xb0; xff; x80] /\
  MessageView.cc_controller (T := uint8_t) false (view_at 0) [xb0; xff; x80]
  = Normal 255 [xb0; xff; x80] /\
  MessageView.cc_value (T := uint8_t) false (view_at 0) [xb0; xff; x80]
  = Normal 128 [xb0; xff; x80].
Proof.
  split; [reflexivity |].
  split; [reflexivity |].
  exact (proj1 (proj2 (proj2
           (data_bytes_come_back_unmasked (T := uint8_t) false
              [xb0; xff; x80] 0 xb0 xff x80 ControlChange eq_refl eq_refl)))
           eq_refl).
Defined.

(** ** [MessagesView]: construction *)

(** C3.  Constructing a sequence view throws [InvalidMidiDataLength] if and
    only if the length of the buffer is not a multiple of three, and
    otherwise returns the view over the buffer. *)
Theorem construct_checks_length {T : Type} (data : span) (m : memory T) :
  (MessagesView.construct data m = Thrown InvalidMidiDataLength m
   <-> span_size data mod 3 <> 0) /\
  (MessagesView.construct data m
   = Normal (MessagesView.mk_MessagesView data) m
   <-> span_size data mod 3 = 0).
Proof.
  unfold MessagesView.construct.
  destruct (Z.eqb_spec (span_size data mod 3) 0) as [Hz | Hnz]; simpl.
  - split; split; intros Hc; try reflexivity; try assumption.
    + discriminate Hc.
    + contradiction.
  - split; split; intros Hc; try reflexivity; try assumption.
    + discriminate Hc.
    + contradiction.
Qed.

(** The lengths 1, 2, 4, 5 and 7 are refused, the lengths 0, 3 and 6 are
    accepted, wherever the buffer starts. *)
Example construct_small_lengths {T : Type} (base : Z) (m : memory T) :
  (forall n, In n [1; 2; 4; 5; 7] ->
             MessagesView.construct (mk_span base n) m
             = Thrown InvalidMidiDataLength m) /\
  (forall n, In n [0; 3; 6] ->
             MessagesView.construct (mk_span base n) m
             = Normal (MessagesView.mk_MessagesView (mk_span base n)) m).
Proof.
  split; intros n Hn; simpl in Hn;
    repeat destruct Hn as [Hn | Hn]; try contradiction; subst n; reflexivity.
Qed.

(** ** [MessageIterator]: steps inside the array *)

Section Iterator.

Context {T : Type}.

Variable m : memory T.

Lemma ptr_add_inside (q d : Z) :
  0 <= q + d <= Z.of_nat (length m) -> ptr_add q d m = Normal (q + d) m.
Proof.
  intros Hin. unfold ptr_add.
  destruct (Z.leb_spec 0 (q + d)); [| lia].
  destruct (Z.leb_spec (q + d) (Z.of_nat (length m))); [| lia].
  reflexivity.
Qed.

Lemma pre_increment_inside (q : Z) :
  0 <= q + 3 <= Z.of_nat (length m) ->
  MessagesView.pre_increment (MessagesView.mk_MessageIterator q) m
  = Normal (MessagesView.mk_MessageIterator (q + 3)) m.
Proof.
  intros Hin. unfold MessagesView.pre_increment. simpl.
  rewrite (bind_normal _ _ _ _ _ (ptr_add_inside q 3 Hin)). reflexivity.
Qed.

Lemma pre_decrement_inside (q : Z) :
  0 <= q - 3 <= Z.of_nat (length m) ->
  MessagesView.pre_decrement (MessagesView.mk_MessageIterator q) m
  = Normal (MessagesView.mk_MessageIterator (q - 3)) m.
Proof.
  intros Hin. unfold MessagesView.pre_decrement. simpl.
  rewrite (bind_normal _ _ _ _ _ (ptr_add_inside q (- 3) Hin)). reflexivity.
Qed.

Lemma post_increment_inside (q : Z) :
  0 <= q + 3 <= Z.of_nat (length m) ->
  MessagesView.post_increment (MessagesView.mk_MessageIterator q) m
  = Normal (MessagesView.mk_MessageIterator q,
            MessagesView.mk_MessageIterator (q + 3)) m.
Proof.
  intros Hin. unfold MessagesView.post_increment.
  rewrite (bind_normal _ _ _ _ _ (pre_increment_inside q Hin)). reflexivity.
Qed.

Lemma post_decrement_inside (q : Z) :
  0 <= q - 3 <= Z.of_nat (length m) ->
  MessagesView.post_decrement (MessagesView.mk_MessageIterator q) m
  = Normal (MessagesView.mk_MessageIterator q,
            MessagesView.mk_MessageIterator (q - 3)) m.
Proof.
  intros Hin. unfold MessagesView.post_decrement.
  rewrite (bind_normal _ _ _ _ _ (pre_decrement_inside q Hin)). reflexivity.
Qed.

Lemma plus_inside (q delta : Z) :
  0 <= q + 3 * delta <= Z.of_nat (length m) ->
  MessagesView.plus (MessagesView.mk_MessageIterator q) delta m
  = Normal (MessagesView.mk_MessageIterator (q + 3 * delta)) m.
Proof.
  intros Hin. unfold MessagesView.plus. simpl.
  rewrite (bind_normal _ _ _ _ _ (ptr_add_inside q (3 * delta) Hin)).
  reflexivity.
Qed.

Lemma minus_inside (q delta : Z) :
  0 <= q - 3 * delta <= Z.of_nat (length m) ->
  MessagesView.minus (MessagesView.mk_MessageIterator q) delta m
  = Normal (MessagesView.mk_MessageIterator (q - 3 * delta)) m.
Proof.
  intros Hin. unfold MessagesView.minus. simpl.
  rewrite (bind_normal _ _ _ _ _ (ptr_add_inside q (- (3 * delta)) Hin)).
  reflexivity.
Qed.

Lemma dereference_inside (q : Z) :
  0 <= q -> q + 3 <= Z.of_nat (length m) ->
  MessagesView.dereference (MessagesView.mk_MessageIterator q) m
  = Normal (view_at q) m.
Proof.
  intros Hq Hend. unfold MessagesView.dereference, bind, span3_of_iter. simpl.
  destruct (Z.leb_spec 0 q); [| lia].
  destruct (Z.leb_spec (q + 3) (Z.of_nat (length m))); [| lia].
  reflexivity.
Qed.

(** Dereferencing reaches no element at the end of the array or past it. *)
Lemma dereference_outside (q : Z) :
  Z.of_nat (length m) < q + 3 ->
  MessagesView.dereference (T := T) (MessagesView.mk_MessageIterator q) m
  = Undefined.
Proof.
  intros Hend. unfold MessagesView.dereference, bind, span3_of_iter. simpl.
  destruct (Z.leb_spec (q + 3) (Z.of_nat (length m))); [lia |].
  rewrite andb_false_r. reflexivity.
Qed.

Lemma subscript_inside (q delta : Z) :
  0 <= q + 3 * delta -> q + 3 * delta + 3 <= Z.of_nat (length m) ->
  MessagesView.subscript (MessagesView.mk_MessageIterator q) delta m
  = Normal (view_at (q + 3 * delta)) m.
Proof.
  intros Hlo Hhi. unfold MessagesView.subscript.
  rewrite (bind_normal _ _ _ _ _ (plus_inside q delta ltac:(lia))).
  apply dereference_inside; assumption.
Qed.

Lemma step_forward_inside (n : nat) :
  forall q : Z,
    0 <= q -> q + 3 * Z.of_nat n <= Z.of_nat (length m) ->
    MessagesView.step_forward n (MessagesView.mk_MessageIterator q) m
    = Normal (MessagesView.mk_MessageIterator (q + 3 * Z.of_nat n)) m.
Proof.
  induction n as [| n IH]; intros q Hq Hend.
  - simpl. unfold ret. do 2 f_equal. lia.
  - cbn [MessagesView.step_forward].
    rewrite (bind_normal _ _ _ _ _ (pre_increment_inside q ltac:(lia))).
    rewrite IH by lia. do 2 f_equal. lia.
Qed.

Lemma window_inside_array (q : Z) :
  0 <= q -> q + 3 <= Z.of_nat (length m) ->
  exists s d0 d1, window m q = Some (s, d0, d1).
Proof.
  intros Hq Hend. unfold window.
  destruct (Z.ltb_spec q 0) as [Hneg | _]; [lia |].
  destruct (nth_error m (Z.to_nat q)) as [s |] eqn:Hs;
    [| apply nth_error_None in Hs; lia].
  destruct (nth_error m (Z.to_nat (q + 1))) as [d0 |] eqn:H0;
    [| apply nth_error_None in H0; lia].
  destruct (nth_error m (Z.to_nat (q + 2))) as [d1 |] eqn:H1;
    [| apply nth_error_None in H1; lia].
  eauto.
Qed.

End Iterator.

(** ** [MessagesView]: elements and positions *)

Lemma construct_multiple_of_three {T : Type} (m : memory T) (base n : Z) :
  MessagesView.construct (mk_span base (3 * n)) m
  = Normal (MessagesView.mk_MessagesView (mk_span base (3 * n))) m.
Proof.
  unfold MessagesView.construct. cbn [span_size].
  rewrite (Z.mul_comm 3 n), Z.mod_mul by lia.
  reflexivity.
Qed.

(** C4.  A sequence view over a buffer of length [3 * n] has exactly [n]
    elements: the distance from the first position to the position past
    the end is [n], and [n] steps forward lead from the one to the other.
    For every index [0 <= i < n], element [i], reached by subscript or by
    [i] steps forward and a dereference, is the message view over the bytes
    [3 * i, 3 * i + 3) of the buffer, all three inside the array. *)
Theorem sequence_elements {T : Type} (m : memory T) (base n : Z) :
  span_inside m (mk_span base (3 * n)) ->
  exists v,
    MessagesView.construct (mk_span base (3 * n)) m = Normal v m /\
    MessagesView.distance
      (MessagesView.past_the_end v) (MessagesView.first_position v) m
    = Normal n m /\
    MessagesView.step_forward (Z.to_nat n) (MessagesView.first_position v) m
    = Normal (MessagesView.past_the_end v) m /\
    forall i, 0 <= i < n ->
      MessagesView.subscript (MessagesView.first_position v) i m
      = Normal (view_at (base + 3 * i)) m /\
      (it <- MessagesView.step_forward (Z.to_nat i)
               (MessagesView.first_position v) ;;
       MessagesView.dereference it) m
      = Normal (view_at (base + 3 * i)) m /\
      exists s d0 d1, window m (base + 3 * i) = Some (s, d0, d1).
Proof.
  intros (Hbase & Hsize & Hend). cbn [span_data span_size] in Hbase, Hsize, Hend.
  exists (MessagesView.mk_MessagesView (mk_span base (3 * n))).
  split; [| split; [| split]].
  - apply construct_multiple_of_three.
  - unfold MessagesView.distance, MessagesView.past_the_end,
      MessagesView.first_position, span_end, span_begin, ret.
    cbn [MessagesView._data MessagesView._span_it span_data span_size].
    f_equal.
    replace (base + 3 * n - base) with (n * 3) by lia.
    apply Z.quot_mul. lia.
  - unfold MessagesView.first_position, MessagesView.past_the_end,
      span_begin, span_end.
    cbn [MessagesView._data MessagesView._span_it span_data span_size].
    rewrite step_forward_inside by lia.
    do 2 f_equal. lia.
  - intros i Hi.
    unfold MessagesView.first_position, span_begin.
    cbn [MessagesView._data MessagesView._span_it span_data span_size].
    split; [| split].
    + apply subscript_inside; lia.
    + rewrite (bind_normal _ _ _ _ _
                 (step_forward_inside m (Z.to_nat i) base Hbase ltac:(lia))).
      rewrite Z2Nat.id by lia.
      apply dereference_inside; lia.
    + apply window_inside_array; lia.
Qed.

Lemma sequence_elements_witness :
  span_inside (T := uint8_t) [x90; x3c; x64; x80; x3c; x00]
    (mk_span 0 (3 * 2)) /\
  exists v,
    MessagesView.construct (T := uint8_t) (mk_span 0 (3 * 2))
      [x90; x3c; x64; x80; x3c; x00]
    = Normal v [x90; x3c; x64; x80; x3c; x00] /\
    MessagesView.distance (T := uint8_t)
      (MessagesView.past_the_end v) (MessagesView.first_position v)
      [x90; x3c; x64; x80; x3c; x00]
    = Normal 2 [x90; x3c; x64; x80; x3c; x00].
Proof.
  assert (Hin : span_inside (T := uint8_t) [x90; x3c; x64; x80; x3c; x00]
                  (mk_span 0 (3 * 2))).
  { unfold span_inside. cbn [span_data span_size length]. lia. }
  split; [exact Hin |].
  destruct (sequence_elements (T := uint8_t)
              [x90; x3c; x64; x80; x3c; x00] 0 2 Hin)
    as (v & Hv & Hcount & _).
  exists v. split; assumption.
Defined.

(** C6.  At every position of an element, one step forward followed by one
    step backward leads back to the position, in the prefix and in the
    postfix form; and the distance from the position of element [j] to the
    position of element [i] is [i - j], while the two positions are
    [3 * (i - j)] bytes apart. *)
Theorem iterator_steps_and_distances {T : Type}
        (m : memory T) (base n : Z) :
  span_inside m (mk_span base (3 * n)) ->
  let v := MessagesView.mk_MessagesView (mk_span base (3 * n)) in
  (forall i, 0 <= i < n ->
     (it <- MessagesView.pre_increment (position v i) ;;
      MessagesView.pre_decrement it) m
     = Normal (position v i) m /\
     (st <- MessagesView.post_increment (position v i) ;;
      st' <- MessagesView.post_decrement (snd st) ;;
      ret (snd st')) m
     = Normal (position v i) m) /\
  (forall i j, 0 <= i <= n -> 0 <= j <= n ->
     MessagesView.plus (MessagesView.first_position v) i m
     = Normal (position v i) m /\
     MessagesView.plus (MessagesView.first_position v) j m
     = Normal (position v j) m /\
     MessagesView.distance (position v i) (position v j) m
     = Normal (i - j) m /\
     MessagesView._span_it (position v i)
     - MessagesView._span_it (position v j) = 3 * (i - j)).
Proof.
  intros (Hbase & Hsize & Hend) v. cbn [span_data span_size] in Hbase, Hsize, Hend.
  split.
  - intros i Hi. unfold position, v, span_begin.
    cbn [MessagesView._data MessagesView._span_it span_data span_size].
    assert (Hup : 0 <= base + 3 * i + 3 <= Z.of_nat (length m)) by lia.
    assert (Hdown : 0 <= base + 3 * i + 3 - 3 <= Z.of_nat (length m)) by lia.
    split.
    + rewrite (bind_normal _ _ _ _ _ (pre_increment_inside m _ Hup)).
      rewrite (pre_decrement_inside m _ Hdown).
      do 2 f_equal. lia.
    + rewrite (bind_normal _ _ _ _ _ (post_increment_inside m _ Hup)).
      cbn [snd].
      rewrite (bind_normal _ _ _ _ _ (post_decrement_inside m _ Hdown)).
      unfold ret. cbn [snd]. do 2 f_equal. lia.
  - intros i j Hi Hj.
    unfold position, v, MessagesView.first_position, span_begin.
    cbn [MessagesView._data MessagesView._span_it span_data span_size].
    split; [apply plus_inside; lia |].
    split; [apply plus_inside; lia |].
    split; [| lia].
    unfold MessagesView.distance, ret.
    cbn [MessagesView._data MessagesView._span_it span_data span_size].
    f_equal.
    replace (base + 3 * i - (base + 3 * j)) with ((i - j) * 3) by lia.
    apply Z.quot_mul. lia.
Qed.

Lemma iterator_steps_and_distances_witness :
  span_inside (T := uint8_t) [x90; x3c; x64; x80; x3c; x00]
    (mk_span 0 (3 * 2)) /\
  MessagesView.distance (T := uint8_t)
    (position (MessagesView.mk_MessagesView (mk_span 0 (3 * 2))) 0)
    (position (MessagesView.mk_MessagesView (mk_span 0 (3 * 2))) 2)
    [x90; x3c; x64; x80; x3c; x00]
  = Normal (0 - 2) [x90; x3c; x64; x80; x3c; x00].
Proof.
  assert (Hin : span_inside (T := uint8_t) [x90; x3c; x64; x80; x3c; x00]
                  (mk_span 0 (3 * 2))).
  { unfold span_inside. cbn [span_data span_size length]. lia. }
  split; [exact Hin |].
  exact (proj1 (proj2 (proj2
           (proj2 (iterator_steps_and_distances (T := uint8_t)
                     [x90; x3c; x64; x80; x3c; x00] 0 2 Hin)
              0 2 ltac:(lia) ltac:(lia))))).
Defined.

(** ** No operation writes to the array *)

Create HintDb frame discriminated.

Section Frame.

Context {T : Type}.

Lemma read_only_ret {A : Type} (a : A) : read_only (T := T) (ret a).
Proof. intros m. reflexivity. Qed.

Lemma read_only_throw {A : Type} (e : exception) :
  read_only (T := T) (A := A) (throw e).
Proof. intros m. reflexivity. Qed.

Lemma read_only_abort {A : Type} : read_only (T := T) (A := A) abort.
Proof. intros m. reflexivity. Qed.

Lemma read_only_undefined {A : Type} : read_only (T := T) (A := A) undefined.
Proof. intros m. exact I. Qed.

Lemma read_only_bind {A B : Type} (c : Mem T A) (k : A -> Mem T B) :
  read_only c -> (forall a, read_only (k a)) -> read_only (bind c k).
Proof.
  intros Hc Hk m. apply bind_unchanged; [apply Hc |].
  intros a. apply Hk.
Qed.

Lemma read_only_load (q : Z) : read_only (T := T) (load q).
Proof.
  intros m. unfold load.
  destruct (q <? 0); [exact I |].
  destruct (nth_error m (Z.to_nat q)); [reflexivity | exact I].
Qed.

Lemma read_only_ptr_add (q d : Z) : read_only (T := T) (ptr_add q d).
Proof.
  intros m. unfold ptr_add.
  destruct ((0 <=? q + d) && (q + d <=? Z.of_nat (length m)));
    [reflexivity | exact I].
Qed.

Lemma read_only_span3_of_iter (first count : Z) :
  read_only (T := T) (span3_of_iter first count).
Proof.
  intros m. unfold span3_of_iter.
  destruct ((count =? 3) && (0 <=? first)
            && (first + count <=? Z.of_nat (length m)));
    [reflexivity | exact I].
Qed.

Lemma read_only_span3_at (s : span3) (idx : Z) :
  read_only (T := T) (span3_at s idx).
Proof.
  unfold span3_at.
  destruct ((0 <=? idx) && (idx <? 3));
    [apply read_only_load | apply read_only_undefined].
Qed.

Lemma read_only_assert (NDEBUG : bool) (c : Mem T bool) :
  read_only c -> read_only (MessageView.CHRDS_ASSERT NDEBUG c).
Proof.
  intros Hc. unfold MessageView.CHRDS_ASSERT.
  destruct NDEBUG; [apply read_only_ret |].
  apply read_only_bind; [exact Hc |].
  intros [|]; [apply read_only_ret | apply read_only_abort].
Qed.

End Frame.

#[export] Hint Resolve read_only_ret read_only_throw read_only_abort
  read_only_undefined read_only_load read_only_ptr_add
  read_only_span3_of_iter read_only_span3_at read_only_assert : frame.

(** Splits a computation into its steps, down to the reads. *)
Ltac frame :=
  repeat first
    [ progress auto with frame
    | apply read_only_bind; [| intros ?]
    | apply read_only_assert
    | match goal with
      | |- read_only (match ?x with _ => _ end) => destruct x
      end ].

Section FrameOfMembers.

Context {T : Type} `{ByteSized T}.

Variable NDEBUG : bool.

Lemma read_only_status (v : MessageView.MessageView) :
  read_only (T := T) (MessageView.status v).
Proof. unfold MessageView.status. auto with frame. Qed.

Lemma read_only_data_0 (v : MessageView.MessageView) :
  read_only (T := T) (MessageView.data_0 v).
Proof. unfold MessageView.data_0. auto with frame. Qed.

Lemma read_only_data_1 (v : MessageView.MessageView) :
  read_only (T := T) (MessageView.data_1 v).
Proof. unfold MessageView.data_1. auto with frame. Qed.

Lemma read_only_kind (v : MessageView.MessageView) :
  read_only (MessageView.kind v).
Proof.
  unfold MessageView.kind.
  apply read_only_bind; [apply read_only_status |].
  intros s.
  destruct (Z.land (static_cast_uint8 (byte_value s)) 0xf0) as [| q | q];
    auto with frame.
  do 8 (destruct q as [q | q |]; auto with frame).
Qed.

#[local] Hint Resolve read_only_status read_only_data_0 read_only_data_1
  read_only_kind : frame.

Lemma read_only_pre_increment (it : MessagesView.MessageIterator) :
  read_only (T := T) (MessagesView.pre_increment it).
Proof. unfold MessagesView.pre_increment. frame. Qed.

Lemma read_only_plus (it : MessagesView.MessageIterator) (delta : Z) :
  read_only (T := T) (MessagesView.plus it delta).
Proof. unfold MessagesView.plus. frame. Qed.

Lemma read_only_dereference (it : MessagesView.MessageIterator) :
  read_only (T := T) (MessagesView.dereference it).
Proof. unfold MessagesView.dereference. frame. Qed.

Lemma read_only_step_forward (n : nat) :
  forall it, read_only (T := T) (MessagesView.step_forward n it).
Proof.
  induction n as [| n IH]; intros it; cbn [MessagesView.step_forward].
  - apply read_only_ret.
  - apply read_only_bind; [apply read_only_pre_increment |].
    intros it'. apply IH.
Qed.

Lemma read_only_run (op : operation) : read_only (run NDEBUG op).
Proof.
  destruct op; cbn [run];
    try apply read_only_step_forward;
    unfold MessageView.construct, MessageView.channel, MessageView.note,
      MessageView.velocity, MessageView.pressure, MessageView.cc_controller,
      MessageView.cc_value, MessageView.program_number,
      MessageView.pitch_wheel, MessagesView.construct,
      MessagesView.post_increment, MessagesView.pre_increment,
      MessagesView.post_decrement, MessagesView.pre_decrement,
      MessagesView.distance, MessagesView.minus_friend, MessagesView.minus,
      MessagesView.minus_assign, MessagesView.plus_friend,
      MessagesView.plus_assign, MessagesView.subscript, MessagesView.plus,
      MessagesView.dereference;
    frame.
Qed.

End FrameOfMembers.

(** C9.  No operation of the message view, of the sequence view or of its
    iterator writes to the underlying array: whenever an operation returns,
    throws or aborts, on whatever array and with whatever arguments, the
    array is the one the operation started from. *)
Theorem views_never_write {T : Type} `{ByteSized T}
        (NDEBUG : bool) (op : operation) (m : memory T) :
  unchanged m (run NDEBUG op m) /\
  (forall m', final_state (run NDEBUG op m) = Some m' -> m' = m).
Proof.
  pose proof (read_only_run NDEBUG op m) as Hro.
  split; [exact Hro |].
  intros m' Hfinal.
  destruct (run NDEBUG op m) as [a s | e s | s |]; simpl in *;
    try discriminate; inversion Hfinal; subst; auto.
Qed.

(** The statement separates reads from writes: a store changes the array
    and is not read-only. *)
Example store_is_not_read_only :
  store (T := uint8_t) 0 x01 [x00] = Normal tt [x01] /\
  (read_only (store (T := uint8_t) 0 x01) -> False).
Proof.
  split; [reflexivity |].
  intros Hro. specialize (Hro [x00]). simpl in Hro. discriminate Hro.
Qed.

(** ** The scenarios of the specification, and the two build modes *)

(** An unsigned byte is its own conversion to [std::uint8_t]. *)
Lemma uint8_is_its_own_conversion (b : uint8_t) :
  static_cast_uint8 (byte_value b) = uint8_value b.
Proof. apply static_cast_uint8_small. apply uint8_value_range. Qed.

(** Buffer [0x90, 0x3C, 0x64]: one element, a NoteOn on channel 0 with note
    60 and velocity 100. *)
Example scenario_note_on :
  let m : memory uint8_t := [x90; x3c; x64] in
  MessagesView.construct (mk_span 0 3) m
  = Normal (MessagesView.mk_MessagesView (mk_span 0 3)) m /\
  (e <- MessagesView.subscript (MessagesView.mk_MessageIterator 0) 0 ;;
   k <- MessageView.kind e ;;
   c <- MessageView.channel false e ;;
   n <- MessageView.note false e ;;
   v <- MessageView.velocity false e ;;
   ret (k, c, n, v)) m
  = Normal (NoteOn, 0, 60, 100) m.
Proof. split; reflexivity. Qed.

(** Buffer [0xE0, 0x00, 0x40]: a PitchWheel of 0x4000. *)
Example scenario_pitch_wheel :
  let m : memory uint8_t := [xe0; x00; x40] in
  MessageView.kind (view_at 0) m = Normal PitchWheel m /\
  MessageView.pitch_wheel (view_at 0) m = Normal 16384 m.
Proof. split; reflexivity. Qed.

(** Buffer [0x00, 0x01, 0x02]: [kind()] throws. *)
Example scenario_data_byte_as_status :
  let m : memory uint8_t := [x00; x01; x02] in
  MessageView.kind (view_at 0) m = Thrown InvalidMidiData m.
Proof. reflexivity. Qed.

(** A buffer of length 4 is refused. *)
Example scenario_length_4 :
  let m : memory uint8_t := [x90; x3c; x64; x80] in
  MessagesView.construct (mk_span 0 4) m = Thrown InvalidMidiDataLength m.
Proof. reflexivity. Qed.

(** The checks on the kind exist in a debug build only.  There,
    [channel()] of a SystemExclusive message and [pressure()] of a NoteOn
    abort, and an accessor called on a window whose status byte is a data
    byte leaves by the exception that [kind()] throws inside the assertion.
    With [NDEBUG] the same calls return. *)
Example debug_and_release :
  let sysex : memory uint8_t := [xf7; x01; x02] in
  let note_on : memory uint8_t := [x90; x3c; x64] in
  let data : memory uint8_t := [x05; x01; x02] in
  MessageView.channel false (view_at 0) sysex = Aborted sysex /\
  MessageView.channel true (view_at 0) sysex = Normal 7 sysex /\
  MessageView.pressure false (view_at 0) note_on = Aborted note_on /\
  MessageView.pressure true (view_at 0) note_on = Normal 0 note_on /\
  MessageView.note false (view_at 0) data = Thrown InvalidMidiData data /\
  MessageView.note true (view_at 0) data = Normal 1 data.
Proof. repeat split. Qed.

(** A window that leaves the array, and the position past the end, have no
    defined reading. *)
Example outside_the_array :
  let m : memory uint8_t := [x90; x3c; x64] in
  MessageView.kind (view_at 3) m = Undefined /\
  MessageView.pitch_wheel (view_at 1) m = Undefined /\
  MessagesView.dereference (MessagesView.mk_MessageIterator 3) m = Undefined /\
  MessagesView.pre_increment (MessagesView.mk_MessageIterator 3) m = Undefined.
Proof. repeat split. Qed.

(** * Further properties *)

(** ** Failing checks *)

Section FailingChecks.

Context {T : Type} `{ByteSized T}.

Lemma bind_aborted {S A B : Type} (c : M S A) (k : A -> M S B) (s s' : S) :
  c s = Aborted s' -> bind c k s = Aborted s'.
Proof. intros Hc. unfold bind. rewrite Hc. reflexivity. Qed.

(** In a debug build the check aborts when [kind()] returns a kind that the
    check refuses. *)
Lemma kind_check_fails (v : MessageView.MessageView)
      (accepts : MessageKind -> bool) (k : MessageKind) (m : memory T) :
  MessageView.kind v m = Normal k m ->
  accepts k = false ->
  MessageView.CHRDS_ASSERT false
    (k' <- MessageView.kind v ;; ret (accepts k')) m = Aborted m.
Proof.
  intros Hk Hacc. unfold MessageView.CHRDS_ASSERT.
  rewrite (bind_normal _ _ _ _ _
             (bind_normal _ (fun k' => ret (accepts k')) _ _ _ Hk)).
  rewrite Hacc. reflexivity.
Qed.

(** In a debug build the exception of [kind()] leaves the assertion. *)
Lemma kind_check_throws (v : MessageView.MessageView)
      (accepts : MessageKind -> bool) (e : exception) (m : memory T) :
  MessageView.kind v m = Thrown e m ->
  MessageView.CHRDS_ASSERT false
    (k' <- MessageView.kind v ;; ret (accepts k')) m = Thrown e m.
Proof.
  intros Hk. unfold MessageView.CHRDS_ASSERT.
  apply bind_thrown. apply bind_thrown. exact Hk.
Qed.

End FailingChecks.

(** Runs an accessor of a debug build up to its failing check. *)
Ltac fail_kind_check Hk k :=
  erewrite bind_aborted; [reflexivity |];
  eapply kind_check_fails; [exact Hk |];
  cbv beta; destruct k; try reflexivity; congruence.

Ltac throw_in_kind_check Hk :=
  erewrite bind_thrown; [reflexivity |];
  eapply kind_check_throws; exact Hk.

(** X1.  In a debug build an accessor called on a message of a kind it does
    not accept aborts: [channel()] on SystemExclusive, [note()] outside
    NoteOff, NoteOn and PolyAftertouch, [velocity()] outside NoteOff and
    NoteOn, [cc_controller()] and [cc_value()] outside ControlChange,
    [program_number()] outside ProgramChange. *)
Theorem wrong_kind_aborts_in_debug {T : Type} `{ByteSized T}
        (m : memory T) (p : Z) (s d0 d1 : T) (k : MessageKind) :
  window m p = Some (s, d0, d1) ->
  MessageView.kind (view_at p) m = Normal k m ->
  (k = SystemExclusive ->
   MessageView.channel false (view_at p) m = Aborted m) /\
  (k <> NoteOff /\ k <> NoteOn /\ k <> PolyAftertouch ->
   MessageView.note false (view_at p) m = Aborted m) /\
  (k <> NoteOff /\ k <> NoteOn ->
   MessageView.velocity false (view_at p) m = Aborted m) /\
  (k <> ControlChange ->
   MessageView.cc_controller false (view_at p) m = Aborted m /\
   MessageView.cc_value false (view_at p) m = Aborted m) /\
  (k <> ProgramChange ->
   MessageView.program_number false (view_at p) m = Aborted m).
Proof.
  intros Hw Hk.
  split; [| split; [| split; [| split]]].
  - intros Hsys. unfold MessageView.channel. fail_kind_check Hk k.
  - intros (H1 & H2 & H3). unfold MessageView.note. fail_kind_check Hk k.
  - intros (H1 & H2). unfold MessageView.velocity. fail_kind_check Hk k.
  - intros Hcc. split.
    + unfold MessageView.cc_controller. fail_kind_check Hk k.
    + unfold MessageView.cc_value. fail_kind_check Hk k.
  - intros Hpc. unfold MessageView.program_number. fail_kind_check Hk k.
Qed.

Lemma wrong_kind_aborts_in_debug_witness :
  window (T := uint8_t) [xf0; x01; x02] 0 = Some (xf0, x01, x02) /\
  MessageView.kind (T := uint8_t) (view_at 0) [xf0; x01; x02]
  = Normal SystemExclusive [xf0; x01; x02] /\
  MessageView.channel (T := uint8_t) false (view_at 0) [xf0; x01; x02]
  = Aborted [xf0; x01; x02].
Proof.
  split; [reflexivity |].
  split; [reflexivity |].
  exact (proj1 (wrong_kind_aborts_in_debug (T := uint8_t)
                  [xf0; x01; x02] 0 xf0 x01 x02 SystemExclusive
                  eq_refl eq_refl) eq_refl).
Defined.

(** X2.  On a window whose status byte has its top bit clear, every
    accessor of a debug build leaves by [InvalidMidiData]: the exception is
    thrown by the call of [kind()] inside the assertion.  [pressure()],
    which switches on [kind()] itself, throws in a release build too. *)
Theorem data_byte_status_throws_in_debug {T : Type} `{ByteSized T}
        (m : memory T) (p : Z) (s d0 d1 : T) :
  window m p = Some (s, d0, d1) ->
  Z.testbit (static_cast_uint8 (byte_value s)) 7 = false ->
  MessageView.channel false (view_at p) m = Thrown InvalidMidiData m /\
  MessageView.note false (view_at p) m = Thrown InvalidMidiData m /\
  MessageView.velocity false (view_at p) m = Thrown InvalidMidiData m /\
  MessageView.cc_controller false (view_at p) m = Thrown InvalidMidiData m /\
  MessageView.cc_value false (view_at p) m = Thrown InvalidMidiData m /\
  MessageView.program_number false (view_at p) m
  = Thrown InvalidMidiData m /\
  (forall NDEBUG,
     MessageView.pressure NDEBUG (view_at p) m = Thrown InvalidMidiData m).
Proof.
  intros Hw Hbit.
  pose proof (kind_rejects_data_byte m p s d0 d1 Hw Hbit) as Hk.
  repeat split.
  - unfold MessageView.channel. throw_in_kind_check Hk.
  - unfold MessageView.note. throw_in_kind_check Hk.
  - unfold MessageView.velocity. throw_in_kind_check Hk.
  - unfold MessageView.cc_controller. throw_in_kind_check Hk.
  - unfold MessageView.cc_value. throw_in_kind_check Hk.
  - unfold MessageView.program_number. throw_in_kind_check Hk.
  - intros NDEBUG. unfold MessageView.pressure.
    apply bind_thrown. exact Hk.
Qed.

Lemma data_byte_status_throws_in_debug_witness :
  window (T := uint8_t) [x05; x01; x02] 0 = Some (x05, x01, x02) /\
  Z.testbit (static_cast_uint8 (byte_value x05)) 7 = false /\
  MessageView.note (T := uint8_t) false (view_at 0) [x05; x01; x02]
  = Thrown InvalidMidiData [x05; x01; x02].
Proof.
  split; [reflexivity |].
  split; [reflexivity |].
  exact (proj1 (proj2 (data_byte_status_throws_in_debug (T := uint8_t)
                         [x05; x01; x02] 0 x05 x01 x02 eq_refl eq_refl))).
Defined.

(** X3.  With [NDEBUG] the accessors check nothing: on every window,
    whatever its status byte (a data byte included), [channel()] returns
    the low nibble of the status byte and [note()], [velocity()],
    [cc_controller()], [cc_value()] and [program_number()] return their data
    byte, each a number in 0..255. *)
Theorem release_build_checks_nothing {T : Type} `{ByteSized T}
        (m : memory T) (p : Z) (s d0 d1 : T) :
  window m p = Some (s, d0, d1) ->
  let raw (d : T) := static_cast_uint8 (byte_value d) in
  MessageView.channel true (view_at p) m = Normal (Z.land (raw s) 0x0f) m /\
  MessageView.note true (view_at p) m = Normal (raw d0) m /\
  MessageView.velocity true (view_at p) m = Normal (raw d1) m /\
  MessageView.cc_controller true (view_at p) m = Normal (raw d0) m /\
  MessageView.cc_value true (view_at p) m = Normal (raw d1) m /\
  MessageView.program_number true (view_at p) m = Normal (raw d0) m /\
  0 <= raw d0 <= 255 /\ 0 <= raw d1 <= 255.
Proof.
  intros Hw raw.
  pose proof (window_status m p s d0 d1 Hw) as Hs.
  pose proof (window_data_0 m p s d0 d1 Hw) as H0.
  pose proof (window_data_1 m p s d0 d1 Hw) as H1.
  pose proof (static_cast_uint8_range (byte_value d0)) as R0.
  pose proof (static_cast_uint8_range (byte_value d1)) as R1.
  unfold MessageView.channel, MessageView.note, MessageView.velocity,
    MessageView.cc_controller, MessageView.cc_value,
    MessageView.program_number, MessageView.CHRDS_ASSERT.
  repeat split; try (unfold raw; lia);
    rewrite (bind_normal _ _ m m tt) by reflexivity;
    first [ rewrite (bind_normal _ _ _ _ _ Hs)
          | rewrite (bind_normal _ _ _ _ _ H0)
          | rewrite (bind_normal _ _ _ _ _ H1) ];
    reflexivity.
Qed.

Lemma release_build_checks_nothing_witness :
  window (T := uint8_t) [x05; x01; x02] 0 = Some (x05, x01, x02) /\
  MessageView.channel (T := uint8_t) true (view_at 0) [x05; x01; x02]
  = Normal 5 [x05; x01; x02].
Proof.
  split; [reflexivity |].
  exact (proj1 (release_build_checks_nothing (T := uint8_t)
                  [x05; x01; x02] 0 x05 x01 x02 eq_refl)).
Defined.

(** X4.  [pressure()] on a message that is neither PolyAftertouch nor
    ChannelAftertouch reaches the default branch of its switch: a debug
    build aborts there, a release build returns 0, whatever the data
    bytes. *)
Theorem pressure_of_other_kinds {T : Type} `{ByteSized T}
        (m : memory T) (p : Z) (s d0 d1 : T) (k : MessageKind) :
  window m p = Some (s, d0, d1) ->
  MessageView.kind (view_at p) m = Normal k m ->
  k <> PolyAftertouch /\ k <> ChannelAftertouch ->
  MessageView.pressure false (view_at p) m = Aborted m /\
  MessageView.pressure true (view_at p) m = Normal 0 m.
Proof.
  intros Hw Hk (Hpoly & Hchan).
  unfold MessageView.pressure.
  rewrite !(bind_normal _ _ _ _ _ Hk).
  destruct k; try congruence; split; reflexivity.
Qed.

Lemma pressure_of_other_kinds_witness :
  window (T := uint8_t) [x90; x3c; x64] 0 = Some (x90, x3c, x64) /\
  MessageView.kind (T := uint8_t) (view_at 0) [x90; x3c; x64]
  = Normal NoteOn [x90; x3c; x64] /\
  MessageView.pressure (T := uint8_t) false (view_at 0) [x90; x3c; x64]
  = Aborted [x90; x3c; x64] /\
  MessageView.pressure (T := uint8_t) true (view_at 0) [x90; x3c; x64]
  = Normal 0 [x90; x3c; x64].
Proof.
  assert (Hw : window (T := uint8_t) [x90; x3c; x64] 0
               = Some (x90, x3c, x64)) by reflexivity.
  assert (Hk : MessageView.kind (T := uint8_t) (view_at 0) [x90; x3c; x64]
               = Normal NoteOn [x90; x3c; x64]) by reflexivity.
  assert (Hother : NoteOn <> PolyAftertouch /\ NoteOn <> ChannelAftertouch)
    by (split; discriminate).
  split; [exact Hw |].
  split; [exact Hk |].
  exact (pressure_of_other_kinds (T := uint8_t)
           [x90; x3c; x64] 0 x90 x3c x64 NoteOn Hw Hk Hother).
Defined.

(** ** The status byte *)

(** A byte is sixteen times its top nibble plus its low nibble. *)
Lemma byte_nibbles (b : Z) :
  0 <= b < 256 ->
  b = 16 * Z.shiftr b 4 + Z.land b 0x0f /\ 0 <= Z.land b 0x0f <= 15.
Proof.
  intros Hb.
  pose proof (forall_bytes
    (fun b => (b =? 16 * Z.shiftr b 4 + Z.land b 0x0f)
              && (0 <=? Z.land b 0x0f) && (Z.land b 0x0f <=? 15))
    eq_refl b Hb) as Hp.
  cbv beta in Hp.
  repeat rewrite andb_true_iff in Hp.
  destruct Hp as [[H0 H1] H2].
  apply Z.eqb_eq in H0. apply Z.leb_le in H1. apply Z.leb_le in H2. auto.
Qed.

(** The kind that [kind()] returns fixes the top nibble of the status
    byte: it is 8 plus the value of the enumerator. *)
Lemma top_nibble_of_kind {T : Type} `{ByteSized T}
      (m : memory T) (p : Z) (s d0 d1 : T) (k : MessageKind) :
  window m p = Some (s, d0, d1) ->
  MessageView.kind (view_at p) m = Normal k m ->
  Z.shiftr (static_cast_uint8 (byte_value s)) 4 = 8 + MessageKind_value k.
Proof.
  intros Hw Hk.
  destruct (status_nibbles _ (static_cast_uint8_range (byte_value s)))
    as (Hq & Hsel & _).
  rewrite (kind_switch m p s d0 d1 Hw), Hsel in Hk.
  set (q := Z.shiftr (static_cast_uint8 (byte_value s)) 4) in *.
  assert (Hcases : q = 0 \/ q = 1 \/ q = 2 \/ q = 3 \/ q = 4 \/ q = 5 \/
                   q = 6 \/ q = 7 \/ q = 8 \/ q = 9 \/ q = 10 \/ q = 11 \/
                   q = 12 \/ q = 13 \/ q = 14 \/ q = 15) by lia.
  repeat destruct Hcases as [Hcase | Hcases];
    try rewrite Hcase in *; try rewrite Hcases in *;
    cbn in Hk; try discriminate Hk;
    inversion Hk; subst k; reflexivity.
Qed.

(** What [channel()] returned, when it returned. *)
Lemma channel_returned {T : Type} `{ByteSized T} (NDEBUG : bool)
      (m : memory T) (p : Z) (s d0 d1 : T) (k : MessageKind) (c : Z) :
  window m p = Some (s, d0, d1) ->
  MessageView.kind (view_at p) m = Normal k m ->
  MessageView.channel NDEBUG (view_at p) m = Normal c m ->
  c = Z.land (static_cast_uint8 (byte_value s)) 0x0f.
Proof.
  intros Hw Hk Hc.
  destruct NDEBUG.
  - unfold MessageView.channel, MessageView.CHRDS_ASSERT in Hc.
    rewrite (bind_normal _ _ m m tt) in Hc by reflexivity.
    rewrite (bind_normal _ _ _ _ _ (window_status m p s d0 d1 Hw)) in Hc.
    inversion Hc. reflexivity.
  - destruct (MessageKind_eqb k SystemExclusive) eqn:Hsys.
    + unfold MessageView.channel in Hc.
      erewrite bind_aborted in Hc; [discriminate Hc |].
      eapply kind_check_fails; [exact Hk |].
      cbv beta. rewrite Hsys. reflexivity.
    + rewrite (channel_returns false m p s d0 d1 Hw k Hk) in Hc.
      * inversion Hc. reflexivity.
      * intros Heq. subst k. discriminate Hsys.
Qed.

(** X5.  For every kind but SystemExclusive, [channel()] returns the low
    nibble of the status byte, a number in 0..15, with and without
    [NDEBUG]. *)
Theorem channel_of_every_channel_message {T : Type} `{ByteSized T}
        (NDEBUG : bool) (m : memory T) (p : Z) (s d0 d1 : T)
        (k : MessageKind) :
  window m p = Some (s, d0, d1) ->
  MessageView.kind (view_at p) m = Normal k m ->
  MessageKind_eqb k SystemExclusive = false ->
  MessageView.channel NDEBUG (view_at p) m
  = Normal (Z.land (byte_value s) 0x0f) m /\
  0 <= Z.land (byte_value s) 0x0f <= 15 /\
  Z.land (byte_value s) 0x0f = byte_value s mod 16.
Proof.
  intros Hw Hk Hsys.
  split; [| split].
  - rewrite <- low_nibble_of_value.
    apply (channel_returns NDEBUG m p s d0 d1 Hw k Hk).
    intros Heq. subst k. discriminate Hsys.
  - rewrite <- low_nibble_of_value.
    apply byte_nibbles. apply static_cast_uint8_range.
  - change 0x0f with (Z.ones 4). rewrite Z.land_ones by lia. reflexivity.
Qed.

Lemma channel_of_every_channel_message_witness :
  window (T := uint8_t) [xe9; x00; x40] 0 = Some (xe9, x00, x40) /\
  MessageView.kind (T := uint8_t) (view_at 0) [xe9; x00; x40]
  = Normal PitchWheel [xe9; x00; x40] /\
  MessageKind_eqb PitchWheel SystemExclusive = false /\
  MessageView.channel (T := uint8_t) false (view_at 0) [xe9; x00; x40]
  = Normal 9 [xe9; x00; x40].
Proof.
  assert (Hw : window (T := uint8_t) [xe9; x00; x40] 0
               = Some (xe9, x00, x40)) by reflexivity.
  assert (Hk : MessageView.kind (T := uint8_t) (view_at 0) [xe9; x00; x40]
               = Normal PitchWheel [xe9; x00; x40]) by reflexivity.
  split; [exact Hw |].
  split; [exact Hk |].
  split; [reflexivity |].
  exact (proj1 (channel_of_every_channel_message (T := uint8_t) false
                  [xe9; x00; x40] 0 xe9 x00 x40 PitchWheel Hw Hk eq_refl)).
Defined.

(** X6.  [kind()] and [channel()] together give the status byte back: the
    byte is [0x80 + 16 * kind + channel], with the kind as the value of its
    enumerator and the channel in 0..15.  Two messages of the same kind and
    channel have the same status byte. *)
Theorem status_from_kind_and_channel {T : Type} `{ByteSized T}
        (NDEBUG : bool) (m : memory T) (p : Z) (s d0 d1 : T)
        (k : MessageKind) (c : Z) :
  window m p = Some (s, d0, d1) ->
  MessageView.kind (view_at p) m = Normal k m ->
  MessageView.channel NDEBUG (view_at p) m = Normal c m ->
  static_cast_uint8 (byte_value s) = 0x80 + 16 * MessageKind_value k + c /\
  0 <= c <= 15.
Proof.
  intros Hw Hk Hc.
  pose proof (channel_returned NDEBUG m p s d0 d1 k c Hw Hk Hc) as Hlow.
  pose proof (top_nibble_of_kind m p s d0 d1 k Hw Hk) as Htop.
  destruct (byte_nibbles _ (static_cast_uint8_range (byte_value s)))
    as (Hsplit & Hrange).
  rewrite <- Hlow in Hsplit, Hrange. rewrite Htop in Hsplit.
  split; [lia | exact Hrange].
Qed.

Lemma status_from_kind_and_channel_witness :
  window (T := uint8_t) [xb3; x07; x7f] 0 = Some (xb3, x07, x7f) /\
  MessageView.kind (T := uint8_t) (view_at 0) [xb3; x07; x7f]
  = Normal ControlChange [xb3; x07; x7f] /\
  MessageView.channel (T := uint8_t) false (view_at 0) [xb3; x07; x7f]
  = Normal 3 [xb3; x07; x7f] /\
  static_cast_uint8 (byte_value xb3)
  = 0x80 + 16 * MessageKind_value ControlChange + 3.
Proof.
  assert (Hw : window (T := uint8_t) [xb3; x07; x7f] 0
               = Some (xb3, x07, x7f)) by reflexivity.
  assert (Hk : MessageView.kind (T := uint8_t) (view_at 0) [xb3; x07; x7f]
               = Normal ControlChange [xb3; x07; x7f]) by reflexivity.
  assert (Hc : MessageView.channel (T := uint8_t) false (view_at 0)
                 [xb3; x07; x7f] = Normal 3 [xb3; x07; x7f]) by reflexivity.
  split; [exact Hw |].
  split; [exact Hk |].
  split; [exact Hc |].
  exact (proj1 (status_from_kind_and_channel (T := uint8_t) false
                  [xb3; x07; x7f] 0 xb3 x07 x7f ControlChange 3 Hw Hk Hc)).
Defined.



(** ** More on [pitch_wheel()] *)

Lemma static_cast_int16_periodic (z q : Z) :
  static_cast_int16 (z + q * 65536) = static_cast_int16 z.
Proof.
  unfold static_cast_int16. change (2 ^ 16) with 65536.
  replace (z + q * 65536 + 2 ^ 15) with (z + 2 ^ 15 + q * 65536) by lia.
  rewrite Z.mod_add by lia. reflexivity.
Qed.

(** The sum of [pitch_wheel()] and [256 * d1 + d0] on the values of the
    bytes differ by a multiple of 65536. *)
Lemma pitch_wheel_sum_congruent (v1 v0 : Z) :
  static_cast_int16
    (Z.shiftl (static_cast_uint16 v1) 8 + static_cast_uint16 v0)
  = static_cast_int16 (256 * v1 + v0).
Proof.
  unfold static_cast_uint16. change (2 ^ 16) with 65536.
  rewrite Z.shiftl_mul_pow2 by lia. change (2 ^ 8) with 256.
  rewrite (Z.mod_eq v1 65536), (Z.mod_eq v0 65536) by lia.
  replace ((v1 - 65536 * (v1 / 65536)) * 256 + (v0 - 65536 * (v0 / 65536)))
    with (256 * v1 + v0 + (- (256 * (v1 / 65536) + v0 / 65536)) * 65536)
    by lia.
  apply static_cast_int16_periodic.
Qed.

(** X8.  The number [pitch_wheel()] returns has the sign of the top bit of
    data_1: with data bytes of values 0..255 it is [256 * d1 + d0] when
    [d1 < 0x80] and [256 * d1 + d0 - 65536], a negative number, when
    [d1 >= 0x80]. *)
Theorem pitch_wheel_sign {T : Type} `{ByteSized T}
        (m : memory T) (p : Z) (s d0 d1 : T) :
  window m p = Some (s, d0, d1) ->
  0 <= byte_value d0 <= 255 ->
  0 <= byte_value d1 <= 255 ->
  exists z,
    MessageView.pitch_wheel (view_at p) m = Normal z m /\
    z = (if byte_value d1 <? 0x80
         then 256 * byte_value d1 + byte_value d0
         else 256 * byte_value d1 + byte_value d0 - 65536) /\
    (z <? 0) = (0x80 <=? byte_value d1).
Proof.
  intros Hw H0 H1.
  eexists. split; [exact (pitch_wheel_on_unsigned m p s d0 d1 Hw H0 H1) |].
  rewrite (static_cast_int16_of_recombined _ _ H1 H0).
  rewrite recombined_range by lia.
  destruct (Z.ltb_spec (byte_value d1) 0x80) as [Hlt | Hge].
  - split; [reflexivity |].
    destruct (Z.ltb_spec (256 * byte_value d1 + byte_value d0) 0);
      destruct (Z.leb_spec 0x80 (byte_value d1)); lia.
  - split; [reflexivity |].
    destruct (Z.ltb_spec (256 * byte_value d1 + byte_value d0 - 65536) 0);
      destruct (Z.leb_spec 0x80 (byte_value d1)); lia.
Qed.

Lemma pitch_wheel_sign_witness :
  window (T := uint8_t) [xe0; x00; x80] 0 = Some (xe0, x00, x80) /\
  0 <= byte_value x00 <= 255 /\
  0 <= byte_value x80 <= 255 /\
  exists z,
    MessageView.pitch_wheel (T := uint8_t) (view_at 0) [xe0; x00; x80]
    = Normal z [xe0; x00; x80] /\
    z = 256 * 128 + 0 - 65536.
Proof.
  assert (Hw : window (T := uint8_t) [xe0; x00; x80] 0
               = Some (xe0, x00, x80)) by reflexivity.
  assert (Hlo : 0 <= byte_value x00 <= 255) by (vm_compute; split; discriminate).
  assert (Hhi : 0 <= byte_value x80 <= 255) by (vm_compute; split; discriminate).
  split; [exact Hw |].
  split; [exact Hlo |].
  split; [exact Hhi |].
  destruct (pitch_wheel_sign (T := uint8_t) [xe0; x00; x80] 0 xe0 x00 x80
              Hw Hlo Hhi) as (z & Hz & Hval & _).
  exists z. split; [exact Hz | exact Hval].
Defined.

(** X9.  For every byte type, signed ones included, [pitch_wheel()] returns
    [256 * d1 + d0], computed on the values of the two bytes and reduced to
    the range of [std::int16_t].  With bytes of values -128..127 the
    reduction changes the number only below -32768: a negative data_0
    takes one from the high byte. *)
Theorem pitch_wheel_of_any_byte_type {T : Type} `{ByteSized T}
        (m : memory T) (p : Z) (s d0 d1 : T) :
  window m p = Some (s, d0, d1) ->
  MessageView.pitch_wheel (view_at p) m
  = Normal (static_cast_int16 (256 * byte_value d1 + byte_value d0)) m /\
  (-128 <= byte_value d0 <= 127 -> -128 <= byte_value d1 <= 127 ->
   -32768 <= 256 * byte_value d1 + byte_value d0 ->
   MessageView.pitch_wheel (view_at p) m
   = Normal (256 * byte_value d1 + byte_value d0) m).
Proof.
  intros Hw.
  assert (Hpw : MessageView.pitch_wheel (view_at p) m
                = Normal (static_cast_int16
                            (256 * byte_value d1 + byte_value d0)) m).
  { rewrite (pitch_wheel_on_window m p s d0 d1 Hw).
    rewrite pitch_wheel_sum_congruent. reflexivity. }
  split; [exact Hpw |].
  intros H0 H1 Hlow. rewrite Hpw. f_equal.
  unfold static_cast_int16.
  change (2 ^ 15) with 32768. change (2 ^ 16) with 65536.
  rewrite Z.mod_small by lia. lia.
Qed.

Lemma pitch_wheel_of_any_byte_type_witness :
  window (T := int8_t) [mk_int8_t xe0; mk_int8_t x80; mk_int8_t x01] 0
  = Some (mk_int8_t xe0, mk_int8_t x80, mk_int8_t x01) /\
  MessageView.pitch_wheel (T := int8_t) (view_at 0)
    [mk_int8_t xe0; mk_int8_t x80; mk_int8_t x01]
  = Normal (256 * 1 + (- 128)) [mk_int8_t xe0; mk_int8_t x80; mk_int8_t x01].
Proof.
  assert (Hw : window (T := int8_t)
                 [mk_int8_t xe0; mk_int8_t x80; mk_int8_t x01] 0
               = Some (mk_int8_t xe0, mk_int8_t x80, mk_int8_t x01))
    by reflexivity.
  assert (H0 : -128 <= byte_value (mk_int8_t x80) <= 127)
    by (vm_compute; split; discriminate).
  assert (H1 : -128 <= byte_value (mk_int8_t x01) <= 127)
    by (vm_compute; split; discriminate).
  assert (Hlow : -32768 <= 256 * byte_value (mk_int8_t x01)
                           + byte_value (mk_int8_t x80))
    by (vm_compute; discriminate).
  split; [exact Hw |].
  exact (proj2 (pitch_wheel_of_any_byte_type (T := int8_t)
                  [mk_int8_t xe0; mk_int8_t x80; mk_int8_t x01] 0
                  (mk_int8_t xe0) (mk_int8_t x80) (mk_int8_t x01) Hw)
           H0 H1 Hlow).
Defined.

(** X10.  Nothing of the two data bytes is lost: with data bytes of values
    0..255, data_0 is the low byte of the number [pitch_wheel()] returns
    and data_1 the low byte of that number shifted right by eight. *)
Theorem pitch_wheel_keeps_both_bytes {T : Type} `{ByteSized T}
        (m : memory T) (p : Z) (s d0 d1 : T) :
  window m p = Some (s, d0, d1) ->
  0 <= byte_value d0 <= 255 ->
  0 <= byte_value d1 <= 255 ->
  exists z,
    MessageView.pitch_wheel (view_at p) m = Normal z m /\
    Z.land z 0xff = byte_value d0 /\
    Z.land (Z.shiftr z 8) 0xff = byte_value d1.
Proof.
  intros Hw H0 H1.
  eexists. split; [exact (pitch_wheel_on_unsigned m p s d0 d1 Hw H0 H1) |].
  rewrite (static_cast_int16_of_recombined _ _ H1 H0).
  rewrite recombined_range by lia.
  change 0xff with (Z.ones 8).
  rewrite !Z.land_ones by lia. rewrite Z.shiftr_div_pow2 by lia.
  change (2 ^ 8) with 256.
  destruct (Z.ltb_spec (byte_value d1) 0x80) as [Hlt | Hge];
    split; Z.div_mod_to_equations; lia.
Qed.

Lemma pitch_wheel_keeps_both_bytes_witness :
  window (T := uint8_t) [xe0; xfe; xff] 0 = Some (xe0, xfe, xff) /\
  0 <= byte_value xfe <= 255 /\
  0 <= byte_value xff <= 255 /\
  exists z,
    MessageView.pitch_wheel (T := uint8_t) (view_at 0) [xe0; xfe; xff]
    = Normal z [xe0; xfe; xff] /\
    Z.land z 0xff = byte_value xfe /\
    Z.land (Z.shiftr z 8) 0xff = byte_value xff.
Proof.
  assert (Hw : window (T := uint8_t) [xe0; xfe; xff] 0
               = Some (xe0, xfe, xff)) by reflexivity.
  assert (Hlo : 0 <= byte_value xfe <= 255) by (vm_compute; split; discriminate).
  assert (Hhi : 0 <= byte_value xff <= 255) by (vm_compute; split; discriminate).
  split; [exact Hw |].
  split; [exact Hlo |].
  split; [exact Hhi |].
  exact (pitch_wheel_keeps_both_bytes (T := uint8_t)
           [xe0; xfe; xff] 0 xe0 xfe xff Hw Hlo Hhi).
Defined.

(** ** More on the iterator *)

Lemma plus_assign_inside {T : Type} (m : memory T) (q delta : Z) :
  0 <= q + 3 * delta <= Z.of_nat (length m) ->
  MessagesView.plus_assign (MessagesView.mk_MessageIterator q) delta m
  = Normal (MessagesView.mk_MessageIterator (q + 3 * delta)) m.
Proof.
  intros Hin. unfold MessagesView.plus_assign. cbn [MessagesView._span_it].
  rewrite (bind_normal _ _ _ _ _ (ptr_add_inside m q (delta * 3) ltac:(lia))).
  unfold ret. do 2 f_equal. lia.
Qed.

Lemma minus_assign_inside {T : Type} (m : memory T) (q delta : Z) :
  0 <= q - 3 * delta <= Z.of_nat (length m) ->
  MessagesView.minus_assign (MessagesView.mk_MessageIterator q) delta m
  = Normal (MessagesView.mk_MessageIterator (q - 3 * delta)) m.
Proof.
  intros Hin. unfold MessagesView.minus_assign. cbn [MessagesView._span_it].
  rewrite (bind_normal _ _ _ _ _
             (ptr_add_inside m q (- (delta * 3)) ltac:(lia))).
  unfold ret. do 2 f_equal. lia.
Qed.

(** X11.  Inside the array, moving an iterator by [delta] elements and back
    by [delta] returns the iterator, for [operator+] followed by
    [operator-], for the two in the other order, and for [+=] followed by
    [-=]; [delta] may be negative. *)
Theorem plus_and_minus_are_inverse {T : Type} (m : memory T)
        (it : MessagesView.MessageIterator) (delta : Z) :
  0 <= MessagesView._span_it it <= Z.of_nat (length m) ->
  0 <= MessagesView._span_it it + 3 * delta <= Z.of_nat (length m) ->
  (x <- MessagesView.plus it delta ;; MessagesView.minus x delta) m
  = Normal it m /\
  (x <- MessagesView.minus it (- delta) ;; MessagesView.plus x (- delta)) m
  = Normal it m /\
  (x <- MessagesView.plus_assign it delta ;;
   MessagesView.minus_assign x delta) m
  = Normal it m.
Proof.
  destruct it as [q]. cbn [MessagesView._span_it]. intros Hq Hmoved.
  split; [| split].
  - rewrite (bind_normal _ _ _ _ _ (plus_inside m q delta Hmoved)).
    rewrite minus_inside by lia. do 2 f_equal. lia.
  - rewrite (bind_normal _ _ _ _ _ (minus_inside m q (- delta) ltac:(lia))).
    rewrite plus_inside by lia. do 2 f_equal. lia.
  - rewrite (bind_normal _ _ _ _ _ (plus_assign_inside m q delta Hmoved)).
    rewrite minus_assign_inside by lia. do 2 f_equal. lia.
Qed.

Lemma plus_and_minus_are_inverse_witness :
  0 <= MessagesView._span_it (MessagesView.mk_MessageIterator 3)
  <= Z.of_nat (length [x90; x3c; x64; x80; x3c; x00]) /\
  0 <= MessagesView._span_it (MessagesView.mk_MessageIterator 3) + 3 * (- 1)
  <= Z.of_nat (length [x90; x3c; x64; x80; x3c; x00]) /\
  (x <- MessagesView.plus (T := uint8_t)
          (MessagesView.mk_MessageIterator 3) (- 1) ;;
   MessagesView.minus x (- 1)) [x90; x3c; x64; x80; x3c; x00]
  = Normal (MessagesView.mk_MessageIterator 3)
      [x90; x3c; x64; x80; x3c; x00].
Proof.
  assert (Hq : 0 <= MessagesView._span_it (MessagesView.mk_MessageIterator 3)
               <= Z.of_nat (length [x90; x3c; x64; x80; x3c; x00]))
    by (vm_compute; split; discriminate).
  assert (Hmoved :
            0 <= MessagesView._span_it (MessagesView.mk_MessageIterator 3)
                 + 3 * (- 1)
            <= Z.of_nat (length [x90; x3c; x64; x80; x3c; x00]))
    by (vm_compute; split; discriminate).
  split; [exact Hq |].
  split; [exact Hmoved |].
  exact (proj1 (plus_and_minus_are_inverse (T := uint8_t)
                  [x90; x3c; x64; x80; x3c; x00]
                  (MessagesView.mk_MessageIterator 3) (- 1) Hq Hmoved)).
Defined.

(** X12.  Inside the array, two moves add up: [(it + a) + b] is
    [it + (a + b)], the iterator [3 * (a + b)] bytes further. *)
Theorem plus_is_additive {T : Type} (m : memory T)
        (it : MessagesView.MessageIterator) (a b : Z) :
  0 <= MessagesView._span_it it + 3 * a <= Z.of_nat (length m) ->
  0 <= MessagesView._span_it it + 3 * a + 3 * b <= Z.of_nat (length m) ->
  (x <- MessagesView.plus it a ;; MessagesView.plus x b) m
  = MessagesView.plus it (a + b) m /\
  MessagesView.plus it (a + b) m
  = Normal (MessagesView.mk_MessageIterator
              (MessagesView._span_it it + 3 * (a + b))) m.
Proof.
  destruct it as [q]. cbn [MessagesView._span_it]. intros Ha Hb.
  rewrite (bind_normal _ _ _ _ _ (plus_inside m q a Ha)).
  rewrite (plus_inside m (q + 3 * a) b Hb).
  rewrite (plus_inside m q (a + b)) by lia.
  split; [do 2 f_equal; lia | reflexivity].
Qed.

Lemma plus_is_additive_witness :
  0 <= MessagesView._span_it (MessagesView.mk_MessageIterator 0) + 3 * 2
  <= Z.of_nat (length [x90; x3c; x64; x80; x3c; x00]) /\
  0 <= MessagesView._span_it (MessagesView.mk_MessageIterator 0)
       + 3 * 2 + 3 * (- 1)
  <= Z.of_nat (length [x90; x3c; x64; x80; x3c; x00]) /\
  (x <- MessagesView.plus (T := uint8_t)
          (MessagesView.mk_MessageIterator 0) 2 ;;
   MessagesView.plus x (- 1)) [x90; x3c; x64; x80; x3c; x00]
  = MessagesView.plus (MessagesView.mk_MessageIterator 0) (2 + - 1)
      [x90; x3c; x64; x80; x3c; x00].
Proof.
  assert (Ha : 0 <= MessagesView._span_it (MessagesView.mk_MessageIterator 0)
                    + 3 * 2
               <= Z.of_nat (length [x90; x3c; x64; x80; x3c; x00]))
    by (vm_compute; split; discriminate).
  assert (Hb : 0 <= MessagesView._span_it (MessagesView.mk_MessageIterator 0)
                    + 3 * 2 + 3 * (- 1)
               <= Z.of_nat (length [x90; x3c; x64; x80; x3c; x00]))
    by (vm_compute; split; discriminate).
  split; [exact Ha |].
  split; [exact Hb |].
  exact (proj1 (plus_is_additive (T := uint8_t)
                  [x90; x3c; x64; x80; x3c; x00]
                  (MessagesView.mk_MessageIterator 0) 2 (- 1) Ha Hb)).
Defined.

(** X13.  The operators of the iterator agree with one another on every
    iterator and every array, where they are defined and where they are
    not: [++] is [+ 1] and [--] is [- 1]; [+=] and [-=] move as [+] and
    [-]; [delta + it] is [it + delta]; [delta - it] is [it - delta];
    [it - delta] is [it + (-delta)]; and [it[0]] is [*it]. *)
Theorem iterator_operators_agree {T : Type} (m : memory T)
        (it : MessagesView.MessageIterator) (delta : Z) :
  MessagesView.pre_increment it m = MessagesView.plus it 1 m /\
  MessagesView.pre_decrement it m = MessagesView.minus it 1 m /\
  MessagesView.plus_assign it delta m = MessagesView.plus it delta m /\
  MessagesView.minus_assign it delta m = MessagesView.minus it delta m /\
  MessagesView.plus_friend delta it m = MessagesView.plus it delta m /\
  MessagesView.minus_friend delta it m = MessagesView.minus it delta m /\
  MessagesView.minus it delta m = MessagesView.plus it (- delta) m /\
  MessagesView.subscript it 0 m = MessagesView.dereference it m.
Proof.
  destruct it as [q].
  unfold MessagesView.pre_increment, MessagesView.pre_decrement,
    MessagesView.plus_assign, MessagesView.minus_assign,
    MessagesView.plus_friend, MessagesView.minus_friend,
    MessagesView.subscript, MessagesView.minus, MessagesView.plus.
  cbn [MessagesView._span_it].
  replace (delta * 3) with (3 * delta) by lia.
  replace (3 * - delta) with (- (3 * delta)) by lia.
  repeat (split; [reflexivity |]).
  (* it[0] and *it *)
  change (3 * 0) with 0.
  unfold bind at 1. unfold bind at 1. unfold ptr_add.
  rewrite Z.add_0_r.
  destruct (Z.leb_spec 0 q) as [Hlo | Hlo];
    destruct (Z.leb_spec q (Z.of_nat (length m))) as [Hhi | Hhi];
    cbn [andb]; unfold ret; try reflexivity;
    unfold MessagesView.dereference, bind, span3_of_iter;
    cbn [MessagesView._span_it Z.eqb Pos.eqb andb];
    destruct (Z.leb_spec 0 q);
    destruct (Z.leb_spec (q + 3) (Z.of_nat (length m)));
    cbn [andb]; try reflexivity; lia.
Qed.

(** X14.  The defaulted comparison orders the positions of a view by their
    index, and agrees with the sign of the distance between them; two
    iterators compare equal exactly when they are the same iterator. *)
Theorem three_way_orders_positions {T : Type} (m : memory T)
        (v : MessagesView.MessagesView) (i j : Z) :
  MessagesView.three_way (position v i) (position v j) = (i ?= j) /\
  MessagesView.distance (position v i) (position v j) m = Normal (i - j) m /\
  MessagesView.three_way (position v i) (position v j) = (i - j ?= 0) /\
  (forall a b, MessagesView.three_way a b = Eq <-> a = b).
Proof.
  unfold MessagesView.three_way, MessagesView.distance, position, ret.
  cbn [MessagesView._span_it].
  split; [| split; [| split]].
  - destruct (Z.compare_spec (span_begin (MessagesView._data v) + 3 * i)
                (span_begin (MessagesView._data v) + 3 * j));
      destruct (Z.compare_spec i j); try reflexivity; lia.
  - f_equal.
    replace (span_begin (MessagesView._data v) + 3 * i
             - (span_begin (MessagesView._data v) + 3 * j))
      with ((i - j) * 3) by lia.
    apply Z.quot_mul. lia.
  - destruct (Z.compare_spec (span_begin (MessagesView._data v) + 3 * i)
                (span_begin (MessagesView._data v) + 3 * j));
      destruct (Z.compare_spec (i - j) 0); try reflexivity; lia.
  - intros [a] [b]. cbn [MessagesView._span_it]. split.
    + intros Heq. apply Z.compare_eq in Heq. subst. reflexivity.
    + intros Heq. inversion Heq. apply Z.compare_refl.
Qed.

(** ** More on the elements *)

(** X15.  The elements of a sequence view tile its buffer: every element
    lies inside the buffer, an element of a larger index starts after the
    end of one of a smaller index, the next element starts where the
    element ends, and elements of different indices start at different
    bytes. *)
Theorem elements_tile_the_buffer {T : Type} (m : memory T) (base n i j : Z) :
  span_inside m (mk_span base (3 * n)) ->
  0 <= i < n ->
  0 <= j < n ->
  let v := MessagesView.mk_MessagesView (mk_span base (3 * n)) in
  exists ei ej,
    MessagesView.subscript (MessagesView.first_position v) i m
    = Normal ei m /\
    MessagesView.subscript (MessagesView.first_position v) j m
    = Normal ej m /\
    let si := span3_data (MessageView._data ei) in
    let sj := span3_data (MessageView._data ej) in
    span_begin (MessagesView._data v) <= si /\
    si + 3 <= span_end (MessagesView._data v) /\
    (i < j -> si + 3 <= sj) /\
    (j = i + 1 -> sj = si + 3) /\
    (si = sj -> i = j).
Proof.
  intros (Hbase & Hsize & Hend) Hi Hj v.
  cbn [span_data span_size] in Hbase, Hsize, Hend.
  exists (view_at (base + 3 * i)), (view_at (base + 3 * j)).
  unfold v, MessagesView.first_position, span_begin, span_end.
  cbn [MessagesView._data span_data span_size].
  split; [apply subscript_inside; lia |].
  split; [apply subscript_inside; lia |].
  unfold view_at. cbn [MessageView._data span3_data].
  repeat split; intros; lia.
Qed.

Lemma elements_tile_the_buffer_witness :
  span_inside (T := uint8_t) [x90; x3c; x64; x80; x3c; x00]
    (mk_span 0 (3 * 2)) /\
  0 <= 0 < 2 /\
  0 <= 1 < 2 /\
  exists ei ej,
    MessagesView.subscript (T := uint8_t)
      (MessagesView.first_position
         (MessagesView.mk_MessagesView (mk_span 0 (3 * 2)))) 0
      [x90; x3c; x64; x80; x3c; x00]
    = Normal ei [x90; x3c; x64; x80; x3c; x00] /\
    MessagesView.subscript (T := uint8_t)
      (MessagesView.first_position
         (MessagesView.mk_MessagesView (mk_span 0 (3 * 2)))) 1
      [x90; x3c; x64; x80; x3c; x00]
    = Normal ej [x90; x3c; x64; x80; x3c; x00].
Proof.
  assert (Hin : span_inside (T := uint8_t) [x90; x3c; x64; x80; x3c; x00]
                  (mk_span 0 (3 * 2))).
  { unfold span_inside. cbn [span_data span_size length]. lia. }
  assert (Hi : 0 <= 0 < 2) by lia.
  assert (Hj : 0 <= 1 < 2) by lia.
  split; [exact Hin |].
  split; [exact Hi |].
  split; [exact Hj |].
  destruct (elements_tile_the_buffer (T := uint8_t)
              [x90; x3c; x64; x80; x3c; x00] 0 2 0 1 Hin Hi Hj)
    as (ei & ej & Hei & Hej & _).
  exists ei, ej. split; assumption.
Defined.



Lemma bind_undefined {S A B : Type} (c : M S A) (k : A -> M S B) (s : S) :
  c s = Undefined -> bind c k s = Undefined.
Proof. intros Hc. unfold bind. rewrite Hc. reflexivity. Qed.

(** No increment leads further than one past the end of the array. *)
Lemma pre_increment_outside {T : Type} (m : memory T) (q : Z) :
  Z.of_nat (length m) < q + 3 ->
  MessagesView.pre_increment (MessagesView.mk_MessageIterator q) m
  = Undefined.
Proof.
  intros Hout. unfold MessagesView.pre_increment.
  apply bind_undefined. unfold ptr_add. cbn [MessagesView._span_it].
  destruct (Z.leb_spec (q + 3) (Z.of_nat (length m))); [lia |].
  rewrite andb_false_r. reflexivity.
Qed.

(** X17.  From an iterator inside the array, [n] increments do what one
    jump by [n] does: both reach the iterator [3 * n] bytes further when
    that is inside the array or one past its end, and neither is defined
    when it is not. *)
Theorem increments_are_a_jump {T : Type} (m : memory T) (n : nat)
        (it : MessagesView.MessageIterator) :
  0 <= MessagesView._span_it it <= Z.of_nat (length m) ->
  MessagesView.step_forward n it m = MessagesView.plus it (Z.of_nat n) m /\
  (MessagesView._span_it it + 3 * Z.of_nat n <= Z.of_nat (length m) ->
   MessagesView.plus it (Z.of_nat n) m
   = Normal (MessagesView.mk_MessageIterator
               (MessagesView._span_it it + 3 * Z.of_nat n)) m) /\
  (Z.of_nat (length m) < MessagesView._span_it it + 3 * Z.of_nat n ->
   MessagesView.step_forward n it m = Undefined).
Proof.
  destruct it as [q]. cbn [MessagesView._span_it]. intros Hq.
  assert (Hjump : forall k q' : Z,
             0 <= q' -> 0 <= k ->
             MessagesView.plus (MessagesView.mk_MessageIterator q') k m
             = if q' + 3 * k <=? Z.of_nat (length m)
               then Normal (MessagesView.mk_MessageIterator (q' + 3 * k)) m
               else Undefined).
  { intros k q' Hq' Hk. unfold MessagesView.plus, bind, ptr_add.
    cbn [MessagesView._span_it].
    destruct (Z.leb_spec 0 (q' + 3 * k)); [| lia].
    destruct (Z.leb_spec (q' + 3 * k) (Z.of_nat (length m))); reflexivity. }
  assert (Hsteps : forall (k : nat) (q' : Z),
             0 <= q' <= Z.of_nat (length m) ->
             MessagesView.step_forward k (MessagesView.mk_MessageIterator q') m
             = if q' + 3 * Z.of_nat k <=? Z.of_nat (length m)
               then Normal (MessagesView.mk_MessageIterator
                              (q' + 3 * Z.of_nat k)) m
               else Undefined).
  { induction k as [| k IH]; intros q' Hq'.
    - cbn [MessagesView.step_forward]. unfold ret.
      destruct (Z.leb_spec (q' + 3 * Z.of_nat 0) (Z.of_nat (length m)));
        [do 2 f_equal; lia | lia].
    - cbn [MessagesView.step_forward].
      destruct (Z.le_gt_cases (q' + 3) (Z.of_nat (length m))) as [Hin | Hout].
      + rewrite (bind_normal _ _ _ _ _
                   (pre_increment_inside m q' ltac:(lia))).
        rewrite IH by lia.
        replace (q' + 3 + 3 * Z.of_nat k) with (q' + 3 * Z.of_nat (S k))
          by lia.
        reflexivity.
      + rewrite (bind_undefined _ _ _ (pre_increment_outside m q' Hout)).
        destruct (Z.leb_spec (q' + 3 * Z.of_nat (S k))
                    (Z.of_nat (length m))); [lia | reflexivity]. }
  rewrite Hsteps by lia. rewrite Hjump by lia.
  split; [reflexivity |].
  split; intros Hend;
    destruct (Z.leb_spec (q + 3 * Z.of_nat n) (Z.of_nat (length m)));
    try reflexivity; lia.
Qed.

Lemma increments_are_a_jump_witness :
  0 <= MessagesView._span_it (MessagesView.mk_MessageIterator 0)
  <= Z.of_nat (length [x90; x3c; x64; x80; x3c; x00]) /\
  MessagesView.step_forward (T := uint8_t) 2
    (MessagesView.mk_MessageIterator 0) [x90; x3c; x64; x80; x3c; x00]
  = MessagesView.plus (MessagesView.mk_MessageIterator 0) (Z.of_nat 2)
      [x90; x3c; x64; x80; x3c; x00].
Proof.
  assert (Hq : 0 <= MessagesView._span_it (MessagesView.mk_MessageIterator 0)
               <= Z.of_nat (length [x90; x3c; x64; x80; x3c; x00]))
    by (vm_compute; split; discriminate).
  split; [exact Hq |].
  exact (proj1 (increments_are_a_jump (T := uint8_t)
                  [x90; x3c; x64; x80; x3c; x00] 2
                  (MessagesView.mk_MessageIterator 0) Hq)).
Defined.
